(** * Tensor allocator and weight storage of the Gemma manager

    A shallow embedding of [util/allocator.h] (aligned allocation, the
    cyclic row offsets of [RowPtr]) and of [gemma/weights.cc] (the
    [ModelWeightsStorage] orchestrator and the NUQ [Reshape]), followed by
    the properties the specification states about them.

    Conventions.
    - [size_t] is a 64-bit unsigned integer: a [Z] in [0, 2^64) whose
      arithmetic is reduced with [SizeT.wrap]; [uint32_t] likewise with
      [to_uint32].
    - A [T*] is a [Z] counted in elements of [T], as C++ pointer
      arithmetic counts: [p + n] is [n] elements after [p], its byte
      address is [sizeof(T) * n] bytes after that of [p].
    - [HWY_DASSERT] aborts in debug builds only ([HWY_IS_DEBUG_BUILD]);
      [HWY_ASSERT] and [HWY_ABORT] abort in every build. *)

From Stdlib Require Import ZArith Lia Bool String.
From stdpp Require Import base option list gmap.

Local Open Scope Z_scope.

(** ** Machine integers *)

Module SizeT.
Definition modulus : Z := 2 ^ 64.
Definition max : Z := modulus - 1.
Definition wrap (z : Z) : Z := z mod modulus.
Definition in_range (z : Z) : bool := (0 <=? z) && (z <=? max).

Definition add (a b : Z) : Z := wrap (a + b).
Definition sub (a b : Z) : Z := wrap (a - b).
Definition mul (a b : Z) : Z := wrap (a * b).
Definition shl (a k : Z) : Z := wrap (Z.shiftl a k).
Definition shr (a k : Z) : Z := Z.shiftr a k.
(** [a / b]; dividing by zero is undefined in C++, here it yields 0. *)
Definition div (a b : Z) : Z := a / b.
End SizeT.

Definition to_uint32 (z : Z) : Z := z mod 2 ^ 32.

(** ** The Highway helpers the header calls ([hwy/base.h]) *)

Module Hwy.
(** [DivCeil(a, b) = (a + b - 1) / b] on [size_t]. *)
Definition DivCeil (a b : Z) : Z :=
  SizeT.div (SizeT.sub (SizeT.add a b) 1) b.

(** [RoundUpTo(what, align) = DivCeil(what, align) * align]. *)
Definition RoundUpTo (what align : Z) : Z :=
  SizeT.mul (DivCeil what align) align.

(** [detail::ShiftCount(n) = (n <= 1) ? 0 : 1 + ShiftCount(n / 2)]. *)
Fixpoint ShiftCount_pos (p : positive) : Z :=
  match p with
  | xH => 0
  | xO q | xI q => 1 + ShiftCount_pos q
  end.

Definition ShiftCount (n : Z) : Z :=
  match n with
  | Zpos p => ShiftCount_pos p
  | _ => 0
  end.
End Hwy.

(** ** Allocator geometry

    [Allocator] is a monostate: its geometry is set once by
    [Allocator::Init] (in [allocator.cc]) and read through static
    accessors.  Here the geometry is an explicit record. *)

Record Geometry : Type := mkGeometry {
  StepBytes : Z;      (* = HWY_MAX(LineBytes(), VectorBytes()) *)
  QuantumBytes : Z;   (* granularity when NUMA may be involved *)
  QuantumSteps : Z;   (* = QuantumBytes() / StepBytes() *)
  ShouldBind : bool
}.

Definition MaxQuantumBytes : Z := 4096.

(** What the header documents about the geometry: [MaxQuantumBytes] is an
    upper bound on [QuantumBytes], [QuantumSteps = QuantumBytes /
    StepBytes], and [QuantumSteps - 1] is used as a bit mask over row
    indices, so [QuantumSteps] is a power of two. *)
Definition geometry_ok (g : Geometry) : bool :=
  (1 <=? StepBytes g)
  && (QuantumBytes g <=? MaxQuantumBytes)
  && (QuantumSteps g =? QuantumBytes g / StepBytes g)
  && (QuantumSteps g =? 2 ^ Z.log2 (QuantumSteps g)).

(** [sizeof(T)] of an element type that [StrideForCyclicOffsets] accepts:
    the quantum in elements, [MaxQuantumBytes / sizeof(T)], is not zero. *)
Definition elem_size_ok (kSize : Z) : bool :=
  (1 <=? kSize) && (kSize <=? MaxQuantumBytes).

(** ** Ownership handles *)

(** [FreeFunc] points to an adapter that calls [FreeAlignedBytes] or
    [munmap]. *)
Inductive FreeFunc : Type := CallFree | CallMunmap.

Record DeleterFree : Type := mkDeleterFree {
  free_func_ : option FreeFunc;
  bytes_ : Z
}.

(** [DeleterFree() : free_func_(nullptr), bytes_(0)]. *)
Definition DeleterFree_default : DeleterFree := mkDeleterFree None 0.

(** [AlignedPtr<T> = std::unique_ptr<T[], DeleterFree>]; the pointer is a
    byte address, [None] is the null pointer of an empty handle. *)
Record AlignedPtr : Type := mkAlignedPtr {
  ptr_get : option Z;
  get_deleter : DeleterFree
}.

Definition AlignedPtr_empty : AlignedPtr := mkAlignedPtr None DeleterFree_default.

Record PtrAndDeleter : Type := mkPtrAndDeleter {
  pd_p : Z;
  pd_deleter : DeleterFree
}.

(** The memory the process owns: the blocks handed out so far (start
    address to byte size) and the first address not yet used. *)
Record Heap : Type := mkHeap {
  blocks : gmap Z Z;
  brk : Z
}.

(** The least multiple of [m] that is not below [n]. *)
Definition ceil_to (n m : Z) : Z := (n + m - 1) / m * m.

(** Modelled from the spec: [Allocator::AllocBytes], defined in
    [allocator.cc], which is not among the sources.  The specification
    says of it that the buffer is raw memory sized to a multiple of quantum
    bytes, quantum-aligned, exclusively owned, and that the handle records
    which of two deallocation strategies applies (plain aligned free or
    unmap) together with the byte count needed to free. *)
Definition AllocBytes (g : Geometry) (bytes : Z) (h : Heap) : PtrAndDeleter * Heap :=
  let p := ceil_to (brk h) (QuantumBytes g) in
  let size := ceil_to bytes (QuantumBytes g) in
  let strategy := if ShouldBind g then CallMunmap else CallFree in
  (mkPtrAndDeleter p (mkDeleterFree (Some strategy) bytes),
   mkHeap (<[p := size]> (blocks h)) (p + size)).

(** [Allocator::Alloc<T>(num)], with [kSize = sizeof(T)]. *)
Definition Alloc (g : Geometry) (kSize num : Z) (h : Heap) : AlignedPtr * Heap :=
  let kIsPow2 := Z.land kSize (kSize - 1) =? 0 in
  let kBits := Hwy.ShiftCount kSize in
  let bytes := if kIsPow2 then SizeT.shl num kBits else SizeT.mul num kSize in
  (* Fail if the [bytes = num * kSize] computation overflowed. *)
  let check := if kIsPow2 then SizeT.shr bytes kBits else SizeT.div bytes kSize in
  if negb (check =? num) then (AlignedPtr_empty, h)
  else
    let '(pd, h') := AllocBytes g bytes h in
    (mkAlignedPtr (Some (pd_p pd)) (pd_deleter pd), h').

(** The byte size of the buffer a handle owns, read off the heap. *)
Definition buffer_bytes (a : AlignedPtr) (h : Heap) : option Z :=
  p ← ptr_get a; blocks h !! p.

(** ** Strides and row pointers *)

(** [StrideForCyclicOffsets<T>(cols)].  For [sizeof(T) > MaxQuantumBytes]
    the quantum is 0 and [RoundUpTo] divides by it, which C++ leaves
    undefined; [elem_size_ok] excludes such element types. *)
Definition StrideForCyclicOffsets (kSize cols : Z) : Z :=
  let quantum := SizeT.div MaxQuantumBytes kSize in
  SizeT.add (Hwy.RoundUpTo cols quantum) quantum.

Record RowPtr : Type := mkRowPtr {
  row0_ : Z;
  stride_ : Z;
  step_ : Z;      (* uint32_t *)
  cols_ : Z;      (* uint32_t *)
  row_mask_ : Z
}.

(** A failed [HWY_DASSERT(cond)]: only a debug build evaluates it. *)
Definition dassert_fails (debug cond : bool) : bool := debug && negb cond.

Section RowPtrOps.
(** [sizeof(T)], [HWY_IS_DEBUG_BUILD] and the allocator geometry. *)
Variable kSize : Z.
Variable debug : bool.
Variable g : Geometry.

(** [RowPtr(row0, cols, stride)]; [None] is a process abort. *)
Definition RowPtr_ctor (row0 cols stride : Z) : option RowPtr :=
  let row_mask := SizeT.sub (QuantumSteps g) 1 in
  if dassert_fails debug (cols <=? stride) then None
  else if dassert_fails debug (negb (row_mask =? SizeT.max)) then None
  else
    let row_mask' :=
      if debug && (stride <? StrideForCyclicOffsets kSize cols)
      then 0 else row_mask in
    Some {| row0_ := row0;
            stride_ := stride;
            step_ := to_uint32 (StepBytes g);
            cols_ := to_uint32 cols;
            row_mask_ := row_mask' |}.

(** [RowPtr(row0, cols) : RowPtr(row0, cols, cols)]. *)
Definition RowPtr_ctor2 (row0 cols : Z) : option RowPtr :=
  RowPtr_ctor row0 cols cols.

(** How much of the previous row's padding [Row(r)] consumes. *)
Definition pad_bytes (rp : RowPtr) (r : Z) : Z :=
  SizeT.mul (Z.land r (row_mask_ rp)) (step_ rp).

(** [Row(r)]: [row0_ + stride_ * r - pad_bytes], on a [T*]. *)
Definition Row (rp : RowPtr) (r : Z) : option Z :=
  if dassert_fails debug (pad_bytes rp r <? QuantumBytes g) then None
  else Some (row0_ rp + SizeT.mul (stride_ rp) r - pad_bytes rp r).

Definition Cols (rp : RowPtr) : Z := cols_ rp.
Definition Stride (rp : RowPtr) : Z := stride_ rp.

(** [SetStride(stride)]: rows become exactly [stride] elements apart. *)
Definition SetStride (rp : RowPtr) (stride : Z) : option RowPtr :=
  if dassert_fails debug (Cols rp <=? stride) then None
  else Some {| row0_ := row0_ rp;
               stride_ := stride;
               step_ := step_ rp;
               cols_ := cols_ rp;
               row_mask_ := 0 |}.

(** [View(r, c, cols)]: the 2D subrange whose top-left is [(r, c)]. *)
Definition View (rp : RowPtr) (r c cols : Z) : option RowPtr :=
  if dassert_fails debug (c <? cols_ rp) then None
  else if dassert_fails debug (cols <=? SizeT.sub (cols_ rp) c) then None
  else p ← Row rp r; RowPtr_ctor (p + c) cols (stride_ rp).

(** What every [RowPtr] made by the constructor or [SetStride]
    satisfies. *)
Definition RowPtr_wf (rp : RowPtr) : bool :=
  (step_ rp =? to_uint32 (StepBytes g))
  && ((row_mask_ rp =? 0) || (row_mask_ rp =? QuantumSteps g - 1))
  && (0 <=? cols_ rp) && (cols_ rp <? 2 ^ 32)
  && (cols_ rp <=? stride_ rp) && SizeT.in_range (stride_ rp).
End RowPtrOps.

(** The byte address of the [T] object a [T*] points to, from the byte
    address of element 0. *)
Definition byte_addr (kSize base p : Z) : Z := base + kSize * p.

(** A float matrix geometry used in the examples: 64-byte steps, a 4 KiB
    quantum (memory binding enabled), hence 64 steps per quantum. *)
Definition geometry_4k : Geometry := mkGeometry 64 4096 64 true.

(** * Weights ([gemma/weights.cc]) *)

Local Open Scope nat_scope.

(** ** Outcomes of a call *)

(** A call returns, aborts the process ([HWY_ABORT], a failed
    [HWY_ASSERT]), or has no defined behaviour in C++ (a write through a
    null pointer or past the end of a buffer). *)
Inductive Outcome (A : Type) : Type :=
| Returns (a : A)
| Aborts (msg : string)
| Undefined.

Arguments Returns {A} a.
Arguments Aborts {A} msg.
Arguments Undefined {A}.

#[global] Instance Outcome_bind : MBind Outcome :=
  fun A B (f : A -> Outcome B) (m : Outcome A) =>
    match m with
    | Returns a => f a
    | Aborts msg => Aborts msg
    | Undefined => Undefined
    end.

(** ** Types the file uses from headers that are not among the sources *)

(** A [float] is its IEEE-754 binary32 bit pattern: the code here only
    stores, copies and compares floats. *)
Abbreviation float := Z (only parsing).
Definition float_0 : float := 0%Z.            (* 0.0f *)
Definition float_1 : float := 0x3f800000%Z.   (* 1.0f *)

(** [enum class Type] ([compression/shared.h]); the enumerators this file
    does not name are [kOtherType]. *)
Inductive Type_ : Type :=
| kUnknown | kF32 | kBF16 | kSFP | kNUQ | kOtherType (tag : Z).

#[global] Instance Type__eq_dec : EqDecision Type_.
Proof. solve_decision. Defined.

(** [enum class Model] ([gemma/configs.h]). *)
Inductive Model : Type := UNKNOWN | KnownModel (id : Z).

Definition PromptWrapping : Type := Z.
Definition BlobError : Type := Z.
Definition ThreadPool : Type := nat.

Inductive ForEachType : Type := kInitNoToc | kLoadNoToc | kLoadWithToc.

(** The fields of [ModelConfig] that [weights.cc] reads or writes. *)
Record ModelConfig : Type := mkModelConfig {
  model : Model;
  model_dim : Z;
  weight : Type_;
  wrapping : PromptWrapping;
  num_tensor_scales : nat;
  vit_num_scales : nat      (* vit_config.num_scales *)
}.

Definition set_weight (c : ModelConfig) (t : Type_) : ModelConfig :=
  mkModelConfig (model c) (model_dim c) t (wrapping c)
                (num_tensor_scales c) (vit_num_scales c).
Definition set_wrapping (c : ModelConfig) (w : PromptWrapping) : ModelConfig :=
  mkModelConfig (model c) (model_dim c) (weight c) w
                (num_tensor_scales c) (vit_num_scales c).

(** [MatPtr] ([compression/compress.h]): a named tensor, the number of its
    elements, the pointer to its data ([None] when unset) and its scale.
    The data is a list of elements: float bit patterns for a float tensor,
    the packed stream for a compressed one. *)
Record MatPtr : Type := mkMatPtr {
  Name : string;
  NumElements : nat;
  data : option (list Z);
  scale : float
}.

Definition set_scale (t : MatPtr) (s : float) : MatPtr :=
  mkMatPtr (Name t) (NumElements t) (data t) s.
Definition SetPtr (t : MatPtr) (p : option (list Z)) : MatPtr :=
  mkMatPtr (Name t) (NumElements t) p (scale t).

(** A tensor whose data pointer is set to a buffer of [NumElements]
    elements. *)
Definition allocated (t : MatPtr) : bool :=
  match data t with
  | Some d => Nat.eqb (length d) (NumElements t)
  | None => false
  end.

(** [MatStorage]: owns the buffer of one tensor once [Allocate]d. *)
Record MatStorage : Type := mkMatStorage {
  storage_num : nat;
  storage_data : option (list Z)
}.

(** [ModelWeightsPtrs<T>] ([gemma/weights.h]): the configuration and the
    named tensors of one variant, in the order of the traversal. *)
Record ModelWeightsPtrs : Type := mkModelWeightsPtrs {
  weights_config : ModelConfig;
  tensors : list MatPtr
}.

(** The dimensions [Reshape] reads from [layer_config]. *)
Module LayerConfig.
Record t : Type := mk {
  model_dim : nat;
  heads : nat;
  qkv_dim : nat
}.
End LayerConfig.

(** [Path] ([compression/io.h]). *)
Record Path : Type := mkPath { path : string }.

(** ** What the file calls and does not define

    The blob store ([compression/]), the model registry
    ([gemma/configs.h]), the members of [ModelWeightsPtrs<T>]
    ([gemma/weights.h]), the NUQ codec and the standard random number
    library.  [T] is passed as its [Type_] tag. *)
Class Externals : Type := {
  (* [Path::Exists()] *)
  Exists : Path -> bool;
  (* [ReadFromBlobStore], its constructor and members *)
  ReadFromBlobStore : Type;
  ReadFromBlobStore_open : Path -> ReadFromBlobStore;
  HaveToc : ReadFromBlobStore -> bool;
  LoadConfig : ReadFromBlobStore -> ModelConfig -> BlobError * ModelConfig;
  LoadTokenizer : ReadFromBlobStore -> BlobError * string;
  (* [loader(name, tensors)]: enqueue the read of one tensor *)
  loader_call : ReadFromBlobStore -> string -> MatPtr -> ReadFromBlobStore;
  LoadScales : ReadFromBlobStore -> nat -> ReadFromBlobStore;
  (* [ReadAll(pool, model_storage_)]: its error code and the storage it
     grows, what it leaves in an enqueued tensor, and in the scales *)
  ReadAll : ReadFromBlobStore -> ThreadPool -> list MatStorage ->
            BlobError * list MatStorage;
  ReadAll_tensors : ReadFromBlobStore -> ModelWeightsPtrs -> ModelWeightsPtrs;
  ReadAll_scales : ReadFromBlobStore -> list float -> list float;
  (* [ConfigFromModel] *)
  ConfigFromModel : Model -> ModelConfig;
  (* [ModelWeightsPtrs<T>(config)] and its members *)
  ModelWeightsPtrs_new : Type_ -> ModelConfig -> ModelWeightsPtrs;
  Ptrs_Allocate : Type_ -> ModelWeightsPtrs -> list MatStorage -> ThreadPool ->
                  ModelWeightsPtrs * list MatStorage;
  Ptrs_GetOrApplyScales : Type_ -> ModelWeightsPtrs -> list float ->
                          ModelWeightsPtrs * list float;
  Ptrs_AllocAndCopyWithTranspose :
    Type_ -> ModelWeightsPtrs -> ThreadPool -> list MatStorage ->
    ModelWeightsPtrs * list MatStorage;
  (* which tensors [ForEachTensor] presents for a [ForEachType] *)
  enumerated : ForEachType -> string -> bool;
  (* the NUQ codec: element [i] of a packed stream, and the stream that
     [Compress] leaves in a destination buffer *)
  nuq_decode : list Z -> nat -> float;
  nuq_encode : list float -> list Z -> list Z;
  (* memory as [AllocateAligned] and [MatStorage::Allocate] return it:
     the value at an index of the buffer of an allocation site *)
  uninitialized : nat -> nat -> Z;
  (* [std::mt19937] and [std::normal_distribution<float>::operator()] *)
  mt19937 : Type;
  normal_distribution : Type;
  normal_distribution_new : float -> float -> normal_distribution;
  normal_draw : normal_distribution -> mt19937 -> float * (normal_distribution * mt19937)
}.

Section Weights.
Context `{ext : Externals}.

(** Modelled from the spec: [ModelWeightsPtrs<T>::ForEachTensor] with one
    container in the span ([gemma/weights.h] is not among the sources):
    a deterministic enumeration that presents every named tensor of the
    container to the handler, here with the state the handler carries. *)
Fixpoint ForEachTensor_list {S : Type} (fet : ForEachType)
    (func : MatPtr -> S -> Outcome (MatPtr * S))
    (ts : list MatPtr) (s : S) : Outcome (list MatPtr * S) :=
  match ts with
  | [] => Returns ([], s)
  | t :: rest =>
      '(t', s') ← (if enumerated fet (Name t) then func t s else Returns (t, s));
      '(rest', s'') ← ForEachTensor_list fet func rest s';
      Returns (t' :: rest', s'')
  end.

Definition ForEachTensor {S : Type} (w : ModelWeightsPtrs) (fet : ForEachType)
    (func : MatPtr -> S -> Outcome (MatPtr * S)) (s : S)
    : Outcome (ModelWeightsPtrs * S) :=
  '(ts, s') ← ForEachTensor_list fet func (tensors w) s;
  Returns (mkModelWeightsPtrs (weights_config w) ts, s').

(** ** [ModelWeightsStorage] *)

Record ModelWeightsStorage : Type := mkModelWeightsStorage {
  config_ : ModelConfig;
  float_weights_ : option ModelWeightsPtrs;
  bf16_weights_ : option ModelWeightsPtrs;
  sfp_weights_ : option ModelWeightsPtrs;
  nuq_weights_ : option ModelWeightsPtrs;
  model_storage_ : list MatStorage
}.

(** A storage on which nothing has been called. *)
Definition ModelWeightsStorage_new (c : ModelConfig) : ModelWeightsStorage :=
  mkModelWeightsStorage c None None None None [].

Definition set_config (st : ModelWeightsStorage) (c : ModelConfig) :=
  mkModelWeightsStorage c (float_weights_ st) (bf16_weights_ st)
    (sfp_weights_ st) (nuq_weights_ st) (model_storage_ st).

Definition set_model_storage (st : ModelWeightsStorage) (ms : list MatStorage) :=
  mkModelWeightsStorage (config_ st) (float_weights_ st) (bf16_weights_ st)
    (sfp_weights_ st) (nuq_weights_ st) ms.

Definition set_float_weights (st : ModelWeightsStorage) (w : option ModelWeightsPtrs) :=
  mkModelWeightsStorage (config_ st) w (bf16_weights_ st)
    (sfp_weights_ st) (nuq_weights_ st) (model_storage_ st).

(** [CreateForType(weight_type, pool)]. *)
Definition CreateForType (weight_type : Type_) (pool : ThreadPool)
    (st : ModelWeightsStorage) : Outcome ModelWeightsStorage :=
  match weight_type with
  | kF32 =>
      Returns (mkModelWeightsStorage (config_ st)
                 (Some (ModelWeightsPtrs_new kF32 (config_ st)))
                 (bf16_weights_ st) (sfp_weights_ st) (nuq_weights_ st)
                 (model_storage_ st))
  | kBF16 =>
      Returns (mkModelWeightsStorage (config_ st)
                 (float_weights_ st)
                 (Some (ModelWeightsPtrs_new kBF16 (config_ st)))
                 (sfp_weights_ st) (nuq_weights_ st) (model_storage_ st))
  | kSFP =>
      Returns (mkModelWeightsStorage (config_ st)
                 (float_weights_ st) (bf16_weights_ st)
                 (Some (ModelWeightsPtrs_new kSFP (config_ st)))
                 (nuq_weights_ st) (model_storage_ st))
  | kNUQ =>
      Returns (mkModelWeightsStorage (config_ st)
                 (float_weights_ st) (bf16_weights_ st) (sfp_weights_ st)
                 (Some (ModelWeightsPtrs_new kNUQ (config_ st)))
                 (model_storage_ st))
  | _ => Aborts "Weight type unsupported."
  end.

(** [if (x_weights_) x_weights_->f(...)] for one of the four members; [x]
    is what the call may change besides the container (the storage
    vector, the scales). *)
Definition on_member {X : Type}
    (f : ModelWeightsPtrs -> X -> ModelWeightsPtrs * X)
    (w : option ModelWeightsPtrs) (x : X) : option ModelWeightsPtrs * X :=
  match w with
  | Some p => let '(p', x') := f p x in (Some p', x')
  | None => (None, x)
  end.

(** The four [if]s in the order of the source: float, bf16, sfp, nuq. *)
Definition on_each_member {X : Type}
    (f : Type_ -> ModelWeightsPtrs -> X -> ModelWeightsPtrs * X)
    (st : ModelWeightsStorage) (x : X) : ModelWeightsStorage * X :=
  let '(fw, x1) := on_member (f kF32) (float_weights_ st) x in
  let '(bw, x2) := on_member (f kBF16) (bf16_weights_ st) x1 in
  let '(sw, x3) := on_member (f kSFP) (sfp_weights_ st) x2 in
  let '(nw, x4) := on_member (f kNUQ) (nuq_weights_ st) x3 in
  (mkModelWeightsStorage (config_ st) fw bw sw nw (model_storage_ st), x4).

(** The same for a member function that takes [model_storage_]. *)
Definition on_each_member_storage
    (f : Type_ -> ModelWeightsPtrs -> list MatStorage ->
         ModelWeightsPtrs * list MatStorage)
    (st : ModelWeightsStorage) : ModelWeightsStorage :=
  let '(st', ms) := on_each_member f st (model_storage_ st) in
  set_model_storage st' ms.

(** [Allocate(config, weight_type, pool)]. *)
Definition Allocate (config : ModelConfig) (weight_type : Type_)
    (pool : ThreadPool) (st : ModelWeightsStorage) : Outcome ModelWeightsStorage :=
  let st := set_config st config in
  let st := set_config st (set_weight (config_ st) weight_type) in
  st ← CreateForType weight_type pool st;
  Returns (on_each_member_storage (fun T p ms => Ptrs_Allocate T p ms pool) st).

(** [GetOrApplyScales(scales)]. *)
Definition GetOrApplyScales (scales : list float) (st : ModelWeightsStorage)
    : ModelWeightsStorage * list float :=
  on_each_member Ptrs_GetOrApplyScales st scales.

(** [AllocAndCopyWithTranspose(pool)]. *)
Definition AllocAndCopyWithTranspose (pool : ThreadPool)
    (st : ModelWeightsStorage) : ModelWeightsStorage :=
  on_each_member_storage
    (fun T p ms => Ptrs_AllocAndCopyWithTranspose T p pool ms) st.

(** ** [Load] *)

(** [TensorLoader<T>::operator()]: every enumerated tensor goes to the
    loader. *)
Definition TensorLoader (weights : ModelWeightsPtrs) (fet : ForEachType)
    (loader : ReadFromBlobStore) : Outcome (ModelWeightsPtrs * ReadFromBlobStore) :=
  ForEachTensor weights fet
    (fun t l => Returns (t, loader_call l (Name t) t)) loader.

(** Modelled from the spec: [CallForModelWeightT<FuncT>]
    ([gemma/weights.h] is not among the sources), which forwards to
    whichever variant container is live; the members are tried in the
    order of the other forwarders, and none being live is fatal. *)
Definition CallForModelWeightT {S : Type}
    (func : ModelWeightsPtrs -> S -> Outcome (ModelWeightsPtrs * S))
    (st : ModelWeightsStorage) (s : S) : Outcome (ModelWeightsStorage * S) :=
  match float_weights_ st, bf16_weights_ st, sfp_weights_ st, nuq_weights_ st with
  | Some w, _, _, _ =>
      '(w', s') ← func w s;
      Returns (set_float_weights st (Some w'), s')
  | None, Some w, _, _ =>
      '(w', s') ← func w s;
      Returns (mkModelWeightsStorage (config_ st) None (Some w')
                 (sfp_weights_ st) (nuq_weights_ st) (model_storage_ st), s')
  | None, None, Some w, _ =>
      '(w', s') ← func w s;
      Returns (mkModelWeightsStorage (config_ st) None None (Some w')
                 (nuq_weights_ st) (model_storage_ st), s')
  | None, None, None, Some w =>
      '(w', s') ← func w s;
      Returns (mkModelWeightsStorage (config_ st) None None None (Some w')
                 (model_storage_ st), s')
  | None, None, None, None => Aborts "No weights loaded."
  end.

(** What [Load] returns: the error code, and what it leaves in the
    storage and in [*tokenizer_proto]. *)
Definition LoadResult : Type := BlobError * ModelWeightsStorage * option string.

(** [Load] from [CreateForType(config_.weight, pool)] on, which both
    branches of the table-of-contents test reach. *)
Definition Load_tensors (fet : ForEachType) (loader : ReadFromBlobStore)
    (scales : list float) (pool : ThreadPool) (tokenizer_proto : option string)
    (st : ModelWeightsStorage) : Outcome LoadResult :=
  st ← CreateForType (weight (config_ st)) pool st;
  '(st, loader) ← CallForModelWeightT (fun w l => TensorLoader w fet l) st loader;
  let scales_empty := Nat.eqb (length scales) 0 in
  let loader :=
    if negb scales_empty then LoadScales loader (length scales) else loader in
  let '(err, ms) := ReadAll loader pool (model_storage_ st) in
  let st := set_model_storage st ms in
  let st := fst (on_each_member (fun _ w x => (ReadAll_tensors loader w, x)) st ()) in
  let scales := if negb scales_empty then ReadAll_scales loader scales else scales in
  if negb (err =? 0)%Z then Returns (err, st, tokenizer_proto)
  else
    let st :=
      if negb scales_empty then fst (GetOrApplyScales scales st) else st in
    let st :=
      match fet with
      | kLoadNoToc => AllocAndCopyWithTranspose pool st
      | _ => st
      end in
    Returns (0%Z, st, tokenizer_proto).

(** [Load(weights, model_type, weight_type, wrapping, pool,
    tokenizer_proto)]; [tokenizer_proto] is [None] for [nullptr], else the
    string it points to. *)
Definition Load (weights : Path) (model_type : Model) (weight_type : Type_)
    (wrapping : PromptWrapping) (pool : ThreadPool)
    (tokenizer_proto : option string) (st : ModelWeightsStorage)
    : Outcome LoadResult :=
  if negb (Exists weights) then Aborts "The model weights file does not exist."
  else
    let loader := ReadFromBlobStore_open weights in
    let fet := if HaveToc loader then kLoadWithToc else kLoadNoToc in
    match fet with
    | kLoadWithToc =>
        let '(err, cfg) := LoadConfig loader (config_ st) in
        let st := set_config st cfg in
        if negb (err =? 0)%Z || (model_dim (config_ st) =? 0)%Z
        then Returns (err, st, tokenizer_proto)
        else
          match tokenizer_proto with
          | Some _ =>
              let '(err, tok) := LoadTokenizer loader in
              if negb (err =? 0)%Z then Returns (err, st, Some tok)
              else Load_tensors fet loader [] pool (Some tok) st
          | None => Load_tensors fet loader [] pool None st
          end
    | _ =>
        match weight_type, model_type with
        | kUnknown, _ | _, UNKNOWN =>
            (* [return __LINE__;] *)
            Returns (85%Z, st, tokenizer_proto)
        | _, _ =>
            (* No Toc-> no config. *)
            let st := set_config st (ConfigFromModel model_type) in
            let st := set_config st (set_weight (config_ st) weight_type) in
            let st := set_config st (set_wrapping (config_ st) wrapping) in
            let scales :=
              replicate (num_tensor_scales (config_ st) + vit_num_scales (config_ st))
                        float_0 in
            Load_tensors fet loader scales pool tokenizer_proto st
        end
    end.

(** ** Sequences of calls on one storage *)

Inductive Call : Type :=
| CallAllocate (config : ModelConfig) (weight_type : Type_) (pool : ThreadPool)
| CallLoad (weights : Path) (model_type : Model) (weight_type : Type_)
           (wrapping : PromptWrapping) (pool : ThreadPool)
           (tokenizer_proto : option string)
| CallCreateForType (weight_type : Type_) (pool : ThreadPool).

Definition call (c : Call) (st : ModelWeightsStorage) : Outcome ModelWeightsStorage :=
  match c with
  | CallAllocate config weight_type pool => Allocate config weight_type pool st
  | CallLoad weights model_type weight_type wrapping pool tokenizer_proto =>
      '(_, st', _) ← Load weights model_type weight_type wrapping pool
                          tokenizer_proto st;
      Returns st'
  | CallCreateForType weight_type pool => CreateForType weight_type pool st
  end.

Fixpoint calls (cs : list Call) (st : ModelWeightsStorage)
    : Outcome ModelWeightsStorage :=
  match cs with
  | [] => Returns st
  | c :: rest => st' ← call c st; calls rest st'
  end.


(** Whether the container of a weight type is live (its pointer set). *)
Definition live (t : Type_) (st : ModelWeightsStorage) : bool :=
  match t with
  | kF32 => bool_decide (is_Some (float_weights_ st))
  | kBF16 => bool_decide (is_Some (bf16_weights_ st))
  | kSFP => bool_decide (is_Some (sfp_weights_ st))
  | kNUQ => bool_decide (is_Some (nuq_weights_ st))
  | _ => false
  end.

Definition live_count (st : ModelWeightsStorage) : nat :=
  Nat.b2n (live kF32 st) + Nat.b2n (live kBF16 st)
  + Nat.b2n (live kSFP st) + Nat.b2n (live kNUQ st).

Definition supported (t : Type_) : bool :=
  match t with
  | kF32 | kBF16 | kSFP | kNUQ => true
  | _ => false
  end.

(** [st'] has the containers of [st] live, and no other. *)
Definition same_live (st st' : ModelWeightsStorage) : Prop :=
  forall t, live t st' = live t st.

(** [st'] has the container of [t] live, and the others as in [st]. *)
Definition adds_live (t : Type_) (st st' : ModelWeightsStorage) : Prop :=
  supported t = true /\ live t st' = true /\
  forall t', t' <> t -> live t' st' = live t' st.

(** ** [RandInit] *)

(** [WeightInitializer]: the distribution it owns and the generator it
    refers to. *)
Record WeightInitializer : Type := mkWeightInitializer {
  dist_ : normal_distribution;
  gen_ : mt19937
}.

(** [WeightInitializer(gen) : dist_(0.0f, 1.0f), gen_(gen)]. *)
Definition WeightInitializer_new (gen : mt19937) : WeightInitializer :=
  mkWeightInitializer (normal_distribution_new float_0 float_1) gen.

(** [dist_(gen_)]. *)
Definition draw (init : WeightInitializer) : float * WeightInitializer :=
  let '(v, (d, g)) := normal_draw (dist_ init) (gen_ init) in
  (v, mkWeightInitializer d g).

(** [for (i = ...; i < NumElements(); ++i) data[i] = dist_(gen_);] with
    [count] iterations left. *)
Fixpoint WeightInitializer_loop (count i : nat) (d : list Z)
    (init : WeightInitializer) : Outcome (list Z * WeightInitializer) :=
  match count with
  | O => Returns (d, init)
  | S count' =>
      if Nat.ltb i (length d) then
        let '(v, init') := draw init in
        WeightInitializer_loop count' (S i) (<[i := v]> d) init'
      else Undefined
  end.

(** [WeightInitializer::operator()(name, tensors)], on [tensors[0]]. *)
Definition WeightInitializer_call (t : MatPtr) (init : WeightInitializer)
    : Outcome (MatPtr * WeightInitializer) :=
  '(p, init') ←
    match data t with
    | Some d =>
        '(d', init') ← WeightInitializer_loop (NumElements t) 0 d init;
        Returns (Some d', init')
    | None =>
        match NumElements t with
        | O => Returns (None, init)
        | S _ => Undefined
        end
    end;
  Returns (set_scale (SetPtr t p) float_1, init').

(** [RandInit(gen)]; the generator is passed by reference, its state after
    the call is returned. *)
Definition RandInit (gen : mt19937) (st : ModelWeightsStorage)
    : Outcome (ModelWeightsStorage * mt19937) :=
  match float_weights_ st with
  | None => Aborts "Assert float_weights_"
  | Some w =>
      '(w', init) ← ForEachTensor w kLoadNoToc WeightInitializer_call
                      (WeightInitializer_new gen);
      Returns (set_float_weights st (Some w'), gen_ init)
  end.

(** The first [n] values that successive calls [dist_(gen_)] return, and
    the initializer after them. *)
Fixpoint draws (n : nat) (init : WeightInitializer) : list float * WeightInitializer :=
  match n with
  | O => ([], init)
  | S n' =>
      let '(v, init') := draw init in
      let '(vs, init'') := draws n' init' in
      (v :: vs, init'')
  end.

(** The number of elements of the tensors a traversal presents, and
    their contents in the order of the traversal. *)
Fixpoint visited_elements (fet : ForEachType) (ts : list MatPtr) : nat :=
  match ts with
  | [] => 0
  | t :: rest =>
      (if enumerated fet (Name t) then NumElements t else 0)
      + visited_elements fet rest
  end.

Fixpoint visited_data (fet : ForEachType) (ts : list MatPtr) : list Z :=
  match ts with
  | [] => []
  | t :: rest =>
      (if enumerated fet (Name t) then default [] (data t) else [])
      ++ visited_data fet rest
  end.

(** What [RandInit] leaves of a tensor [t]: if the traversal presents it,
    the same tensor with all its elements allocated and scale 1.0f, else
    [t]. *)
Definition randomized (fet : ForEachType) (t t' : MatPtr) : Prop :=
  if enumerated fet (Name t)
  then Name t' = Name t /\ NumElements t' = NumElements t /\
       scale t' = float_1 /\ allocated t' = true
  else t' = t.

(** ** [LayerWeightsPtrs<NuqStream>::Reshape] *)

Record LayerWeightsPtrs : Type := mkLayerWeightsPtrs {
  attn_vec_einsum_w : MatPtr;
  att_weights : MatPtr;
  layer_config : LayerConfig.t
}.

(** [hwy::AllocateAligned<float>(n)] at an allocation site: [n] floats of
    unspecified content. *)
Definition AllocateAligned (site n : nat) : list float :=
  uninitialized site <$> seq 0 n.

(** [MatStorage::Allocate()]. *)
Definition MatStorage_Allocate (s : MatStorage) : MatStorage :=
  mkMatStorage (storage_num s) (Some (uninitialized 0 <$> seq 0 (storage_num s))).

(** [DecompressAndZeroPad(df, MakeSpan(packed, ...), packed_ofs, raw, num)]:
    [raw[i]] becomes element [packed_ofs + i] of the stream, for [i < num]. *)
Definition DecompressAndZeroPad (packed : list Z) (packed_ofs : nat)
    (raw : list float) (num : nat) : list float :=
  list_inserts 0 ((fun i => nuq_decode packed (packed_ofs + i)) <$> seq 0 num) raw.

(** [hwy::CopyBytes(from + from_ofs, to + to_ofs, count * sizeof(float))]
    between two float buffers. *)
Definition CopyBytes (from : list float) (from_ofs : nat)
    (to : list float) (to_ofs count : nat) : list float :=
  list_inserts to_ofs (take count (drop from_ofs from)) to.

(** The inner loop over [h] for the output row [m]. *)
Definition Reshape_row (c : LayerConfig.t) (attn_vec_einsum_w_tmp : list float)
    (att_weights_tmp : list float) (m : nat) : list float :=
  let model_dim := LayerConfig.model_dim c in
  let heads := LayerConfig.heads c in
  let qkv_dim := LayerConfig.qkv_dim c in
  let out_row := m * heads * qkv_dim in
  foldl (fun out h =>
           CopyBytes attn_vec_einsum_w_tmp (h * model_dim * qkv_dim + m * qkv_dim)
                     out (out_row + h * qkv_dim) qkv_dim)
        att_weights_tmp (seq 0 heads).

(** The outer loop over [m]. *)
Definition Reshape_rows (c : LayerConfig.t) (attn_vec_einsum_w_tmp : list float)
    (att_weights_tmp : list float) : list float :=
  foldl (Reshape_row c attn_vec_einsum_w_tmp) att_weights_tmp
        (seq 0 (LayerConfig.model_dim c)).

(** [Compress(raw, num, work, MakeSpan(packed, ...), 0, pool)]. *)
Definition Compress (raw : list float) (num : nat) (packed : list Z) : list Z :=
  nuq_encode (take num raw) packed.

(** [Reshape(storage)]; [storage] is [None] for [nullptr].  [att_weights]
    points into [*storage] after [SetPtr], so what [Compress] writes shows
    in both. *)
Definition Reshape (storage : option MatStorage) (lw : LayerWeightsPtrs)
    : Outcome (LayerWeightsPtrs * option MatStorage) :=
  match data (attn_vec_einsum_w lw) with
  | None => Returns (lw, storage)
  | Some packed =>
      let model_dim := LayerConfig.model_dim (layer_config lw) in
      let heads := LayerConfig.heads (layer_config lw) in
      let qkv_dim := LayerConfig.qkv_dim (layer_config lw) in
      (* Reshape [kHeads, kModelDim, kQKVDim] to [kModelDim, kHeads * kQKVDim]. *)
      let storage := MatStorage_Allocate <$> storage in
      let att_weights1 :=
        match storage with
        | Some s => SetPtr (att_weights lw) (storage_data s)
        | None => att_weights lw
        end in
      let num := model_dim * heads * qkv_dim in
      let attn_vec_einsum_w_tmp := AllocateAligned 1 num in
      let att_weights_tmp := AllocateAligned 2 num in
      let attn_vec_einsum_w_tmp :=
        DecompressAndZeroPad packed 0 attn_vec_einsum_w_tmp num in
      let att_weights_tmp :=
        Reshape_rows (layer_config lw) attn_vec_einsum_w_tmp att_weights_tmp in
      match data att_weights1 with
      | None => Undefined
      | Some dest =>
          let dest' := Compress att_weights_tmp num dest in
          let att_weights2 :=
            set_scale (SetPtr att_weights1 (Some dest'))
                      (scale (attn_vec_einsum_w lw)) in
          Returns (mkLayerWeightsPtrs (attn_vec_einsum_w lw) att_weights2
                     (layer_config lw),
                   (fun s => mkMatStorage (storage_num s) (Some dest')) <$> storage)
      end
  end.

(** The element of [[heads, model_dim, qkv_dim]] at [(h, m, i)] and the
    element of [[model_dim, heads * qkv_dim]] at [(m, h * qkv_dim + i)]. *)
Definition src_index (c : LayerConfig.t) (h m i : nat) : nat :=
  h * LayerConfig.model_dim c * LayerConfig.qkv_dim c + m * LayerConfig.qkv_dim c + i.
Definition dst_index (c : LayerConfig.t) (m h i : nat) : nat :=
  m * (LayerConfig.heads c * LayerConfig.qkv_dim c) + (h * LayerConfig.qkv_dim c + i).

End Weights.

(** ** An instance for the examples

    Two files exist, [toc.sbs] with a table of contents and [legacy.sbs]
    without; a container has two tensors; the generator counts its
    draws. *)

Definition example_config : ModelConfig :=
  mkModelConfig (KnownModel 0) 32%Z kF32 0%Z 1 0.

Definition example_tensors : list MatPtr :=
  [mkMatPtr "a" 2 None float_1; mkMatPtr "b" 3 None float_1].

Definition example_allocate (t : MatPtr) : MatPtr :=
  SetPtr t (Some (replicate (NumElements t) 0%Z)).

Definition example_externals : Externals := {|
  Exists p := String.eqb (path p) "toc.sbs" || String.eqb (path p) "legacy.sbs";
  ReadFromBlobStore := Path;
  ReadFromBlobStore_open p := p;
  HaveToc p := String.eqb (path p) "toc.sbs";
  LoadConfig _ _ := (0%Z, example_config);
  LoadTokenizer _ := (0%Z, "tokenizer"%string);
  loader_call l _ _ := l;
  LoadScales l _ := l;
  ReadAll _ _ ms := (0%Z, ms);
  ReadAll_tensors _ w := mkModelWeightsPtrs (weights_config w) (example_allocate <$> tensors w);
  ReadAll_scales _ scales := scales;
  ConfigFromModel _ := example_config;
  ModelWeightsPtrs_new _ c := mkModelWeightsPtrs c example_tensors;
  Ptrs_Allocate _ w ms _ :=
    (mkModelWeightsPtrs (weights_config w) (example_allocate <$> tensors w), ms);
  Ptrs_GetOrApplyScales _ w scales := (w, scales);
  Ptrs_AllocAndCopyWithTranspose _ w _ ms := (w, ms);
  enumerated _ _ := true;
  nuq_decode packed i := default 0%Z (packed !! i);
  nuq_encode raw _ := raw;
  uninitialized _ _ := (-1)%Z;
  mt19937 := nat;
  normal_distribution := float * float;
  normal_distribution_new mean stddev := (mean, stddev);
  normal_draw d g := (Z.of_nat g, (d, S g))
|}.

(** A layer of 2 heads, model dimension 3 and head dimension 2, whose
    source tensor holds 0..11. *)
Definition example_layer : LayerWeightsPtrs :=
  mkLayerWeightsPtrs
    (mkMatPtr "attn_vec_einsum_w" 12
       (Some (Z.of_nat <$> seq 0 12)) 7%Z)
    (mkMatPtr "att_weights" 12 None float_1)
    (LayerConfig.mk 3 2 2).

Local Open Scope Z_scope.

(** * More of [util/allocator.h] *)

(** [RoundUpToOddLines<T>(num, line_bytes)]: [num] rounded up to an odd
    number of cache lines; [None] is a failed [HWY_DASSERT]. *)
Definition RoundUpToOddLines (debug : bool) (kSize num line_bytes : Z) : option Z :=
  if dassert_fails debug (32 <=? line_bytes) then None
  else if dassert_fails debug (line_bytes mod kSize =? 0) then None
  else
    let lines := Hwy.DivCeil (SizeT.mul num kSize) line_bytes in
    let padded_num := SizeT.div (SizeT.mul (Z.lor lines 1) line_bytes) kSize in
    if dassert_fails debug (num <=? padded_num) then None
    else Some padded_num.

(** [Extents2D] ([util/basics.h]). *)
Module Extents2D.
Record t : Type := mk {
  rows : Z;
  cols : Z
}.
End Extents2D.

(** [RowVectorBatch<T>]: owns the memory of a batch of row vectors. *)
Module RowVectorBatch.
Record t : Type := mk {
  mem_ : AlignedPtr;
  extents_ : Extents2D.t;
  stride_ : Z
}.

(** The number of elements the constructor asks [Alloc] for. *)
Definition padded (g : Geometry) (kSize : Z) (extents : Extents2D.t) (stride : Z) : Z :=
  Hwy.RoundUpTo (SizeT.mul (Extents2D.rows extents) stride)
                (SizeT.div (QuantumBytes g) kSize).

(** [RowVectorBatch(extents, stride = 0)]; [HWY_ASSERT] aborts in every
    build.  [RoundUpTo] divides by its alignment, [QuantumBytes() /
    sizeof(T)]: when that is 0 (an element larger than the quantum, or a
    geometry that [Init] has not set) the division is undefined. *)
Definition ctor (g : Geometry) (kSize : Z) (extents : Extents2D.t) (stride : Z)
    (h : Heap) : Outcome (t * Heap) :=
  s ← (if stride =? 0 then Returns (Extents2D.cols extents)
       else if negb (Extents2D.cols extents <=? stride)
            then Aborts "Assert stride >= extents_.cols"
            else Returns stride);
  (* Allow binding the entire matrix. *)
  if SizeT.div (QuantumBytes g) kSize =? 0 then Undefined
  else
    let '(mem, h') := Alloc g kSize (padded g kSize extents s) h in
    Returns (mk mem extents s, h').

Definition BatchSize (b : t) : Z := Extents2D.rows (extents_ b).
Definition Cols (b : t) : Z := Extents2D.cols (extents_ b).
Definition Stride (b : t) : Z := stride_ b.
Definition Extents (b : t) : Extents2D.t := extents_ b.

(** [All()]: [mem_.get()] as a [T*], the element pointer of the byte
    address the handle holds; [None] for the null pointer of an empty
    handle. *)
Definition All (kSize : Z) (b : t) : option Z :=
  (fun a => a / kSize) <$> ptr_get (mem_ b).

(** [Batch(batch_idx)]: [mem_.get() + batch_idx * stride_]. *)
Definition Batch (debug : bool) (kSize : Z) (b : t) (batch_idx : Z) : option Z :=
  if dassert_fails debug (batch_idx <? BatchSize b) then None
  else p ← All kSize b; Some (p + SizeT.mul batch_idx (stride_ b)).

(** [NumBytes()]: [BatchSize() * stride_ * sizeof(T)]. *)
Definition NumBytes (kSize : Z) (b : t) : Z :=
  SizeT.mul (SizeT.mul (BatchSize b) (stride_ b)) kSize.
End RowVectorBatch.

(** [AllocateAlignedRows<T>(extents)].  The stride is computed first:
    with a quantum of 0 elements [StrideForCyclicOffsets] divides by
    zero. *)
Definition AllocateAlignedRows (g : Geometry) (kSize : Z) (extents : Extents2D.t)
    (h : Heap) : Outcome (RowVectorBatch.t * Heap) :=
  if SizeT.div MaxQuantumBytes kSize =? 0 then Undefined
  else
    RowVectorBatch.ctor g kSize extents
      (StrideForCyclicOffsets kSize (Extents2D.cols extents)) h.

(** [RowPtrFromBatch(row_vectors)]. *)
Definition RowPtrFromBatch (kSize : Z) (debug : bool) (g : Geometry)
    (row_vectors : RowVectorBatch.t) : option RowPtr :=
  p ← RowVectorBatch.All kSize row_vectors;
  RowPtr_ctor kSize debug g p (RowVectorBatch.Cols row_vectors)
              (RowVectorBatch.Stride row_vectors).

(** [DeleterDtor]: [num_] is indeterminate ([None]) after the default
    constructor. *)
Record DeleterDtor : Type := mkDeleterDtor {
  num_ : option Z;
  free_ : DeleterFree
}.

(** [AlignedClassPtr<T> = std::unique_ptr<T[], DeleterDtor>]. *)
Record AlignedClassPtr : Type := mkAlignedClassPtr {
  class_get : option Z;
  class_deleter : DeleterDtor
}.

(** What happens to the objects of an array, in order: the constructor or
    the destructor of element [i] runs, or [free_func_(p, bytes)] is
    called. *)
Inductive ObjectEvent : Type :=
| Constructed (i : Z)
| Destroyed (i : Z)
| Freed (p : Z) (bytes : Z).

(** [for (size_t i = 0; i < num; ++i) body(i)], as the list of the [i]. *)
Definition size_t_range (num : Z) : list Z :=
  Z.of_nat <$> seq 0 (Z.to_nat num).

(** [Allocator::AllocClasses<T>(num, args...)], with the constructor calls
    it makes. *)
Definition AllocClasses (g : Geometry) (kSize num : Z) (h : Heap)
    : AlignedClassPtr * Heap * list ObjectEvent :=
  let kIsPow2 := Z.land kSize (kSize - 1) =? 0 in
  let kBits := Hwy.ShiftCount kSize in
  let bytes := if kIsPow2 then SizeT.shl num kBits else SizeT.mul num kSize in
  (* Fail if the [bytes = num * kSize] computation overflowed. *)
  let check := if kIsPow2 then SizeT.shr bytes kBits else SizeT.div bytes kSize in
  if negb (check =? num)
  then (mkAlignedClassPtr None (mkDeleterDtor None DeleterFree_default), h, [])
  else
    let '(pd, h') := AllocBytes g bytes h in
    (mkAlignedClassPtr (Some (pd_p pd)) (mkDeleterDtor (Some num) (pd_deleter pd)),
     h', Constructed <$> size_t_range num).

(** [DeleterDtor::operator()(p)], then [DeleterFree::operator()(p)]; [None]
    where [num_] is indeterminate or [free_func_] is null. *)
Definition DeleterDtor_call (d : DeleterDtor) (p : Z) : option (list ObjectEvent) :=
  num ← num_ d;
  _ ← free_func_ (free_ d);
  Some ((Destroyed <$> size_t_range num) ++ [Freed p (bytes_ (free_ d))]).

(** Releasing a handle: [std::unique_ptr] calls its deleter unless it
    holds the null pointer. *)
Definition AlignedClassPtr_release (a : AlignedClassPtr) : option (list ObjectEvent) :=
  match class_get a with
  | None => Some []
  | Some p => DeleterDtor_call (class_deleter a) p
  end.

(** * More of [gemma/weights.cc] *)

(** A call of [Allocate] or [CreateForType] with the weight type [t]. *)
Definition call_has_type (t : Type_) (c : Call) : bool :=
  match c with
  | CallAllocate _ weight_type _ => bool_decide (weight_type = t)
  | CallCreateForType weight_type _ => bool_decide (weight_type = t)
  | CallLoad _ _ _ _ _ _ => false
  end.

(** The position in the [[heads, model_dim, qkv_dim]] layout of the
    element at position [j] of [[model_dim, heads * qkv_dim]], and the
    converse. *)
Definition reshape_source (c : LayerConfig.t) (j : nat) : nat :=
  let row := (LayerConfig.heads c * LayerConfig.qkv_dim c)%nat in
  src_index c ((j mod row) / LayerConfig.qkv_dim c)%nat (j / row)%nat
            (j mod LayerConfig.qkv_dim c)%nat.

Definition reshape_dest (c : LayerConfig.t) (k : nat) : nat :=
  let head := (LayerConfig.model_dim c * LayerConfig.qkv_dim c)%nat in
  dst_index c ((k mod head) / LayerConfig.qkv_dim c)%nat (k / head)%nat
            (k mod LayerConfig.qkv_dim c)%nat.

(** [hwy::CopyBytes] with the bounds of the two buffers checked: reading
    or writing outside them has no defined behaviour. *)
Definition CopyBytes_checked (from : list float) (from_ofs : nat)
    (to : list float) (to_ofs count : nat) : Outcome (list float) :=
  if (from_ofs + count <=? length from)%nat && (to_ofs + count <=? length to)%nat
  then Returns (CopyBytes from from_ofs to to_ofs count)
  else Undefined.

(** The two loops of [Reshape] over [CopyBytes_checked]. *)
Definition Reshape_row_checked (c : LayerConfig.t)
    (attn_vec_einsum_w_tmp : list float) (att_weights_tmp : Outcome (list float))
    (m : nat) : Outcome (list float) :=
  let model_dim := LayerConfig.model_dim c in
  let heads := LayerConfig.heads c in
  let qkv_dim := LayerConfig.qkv_dim c in
  let out_row := (m * heads * qkv_dim)%nat in
  foldl (fun out h =>
           o ← out;
           CopyBytes_checked attn_vec_einsum_w_tmp
             (h * model_dim * qkv_dim + m * qkv_dim)%nat
             o (out_row + h * qkv_dim)%nat qkv_dim)
        att_weights_tmp (seq 0 heads).

Definition Reshape_rows_checked (c : LayerConfig.t)
    (attn_vec_einsum_w_tmp : list float) (att_weights_tmp : list float)
    : Outcome (list float) :=
  foldl (Reshape_row_checked c attn_vec_einsum_w_tmp) (Returns att_weights_tmp)
        (seq 0 (LayerConfig.model_dim c)).

(** * Properties of the allocator and of the row pointers *)

(** ** Arithmetic helpers *)

(** Splits a goal [b1 && ... && bn = true] over integer comparisons. *)
Ltac split_andb :=
  repeat (apply andb_true_intro; split);
  rewrite ?orb_true_iff, ?Z.eqb_eq, ?Z.leb_le, ?Z.ltb_lt.

Lemma wrap_small (z : Z) : 0 <= z <= SizeT.max -> SizeT.wrap z = z.
Proof.
  intros Hz. unfold SizeT.wrap. apply Z.mod_small.
  unfold SizeT.max in Hz. lia.
Qed.

Lemma wrap_range (z : Z) : 0 <= SizeT.wrap z <= SizeT.max.
Proof.
  unfold SizeT.wrap, SizeT.max.
  assert (0 < SizeT.modulus) by (unfold SizeT.modulus; lia).
  pose proof (Z.mod_pos_bound z SizeT.modulus ltac:(assumption)). lia.
Qed.

Lemma max_value : SizeT.max = 18446744073709551615.
Proof. reflexivity. Qed.

Lemma ceil_to_spec (n m : Z) :
  0 < m -> (m | ceil_to n m) /\ n <= ceil_to n m < n + m.
Proof.
  intros Hm. unfold ceil_to. split.
  - apply Z.divide_factor_r.
  - pose proof (Z.div_mod (n + m - 1) m ltac:(lia)) as Hdm.
    pose proof (Z.mod_pos_bound (n + m - 1) m Hm). nia.
Qed.

Lemma land_even_odd (a b : Z) : Z.land (2 * a) (2 * b + 1) = 2 * Z.land a b.
Proof.
  apply Z.bits_inj'. intros n Hn. rewrite Z.land_spec.
  destruct (Z.eq_dec n 0) as [-> | Hne].
  - rewrite Z.testbit_even_0, (Z.testbit_even_0 (Z.land a b)). reflexivity.
  - replace n with (Z.succ (n - 1)) by lia.
    rewrite Z.testbit_even_succ, Z.testbit_odd_succ, Z.testbit_even_succ by lia.
    now rewrite Z.land_spec.
Qed.

Lemma land_odd_even (a : Z) : Z.land (2 * a + 1) (2 * a) = 2 * a.
Proof.
  apply Z.bits_inj'. intros n Hn. rewrite Z.land_spec.
  destruct (Z.eq_dec n 0) as [-> | Hne].
  - rewrite Z.testbit_odd_0, Z.testbit_even_0. reflexivity.
  - replace n with (Z.succ (n - 1)) by lia.
    rewrite Z.testbit_even_succ, Z.testbit_odd_succ by lia.
    apply andb_diag.
Qed.

(** The [static_assert] of [Alloc]: a size that passes the power-of-two test
    is two to the power of its [ShiftCount]. *)
Lemma ShiftCount_pos_pow2 (p : positive) :
  Z.land (Zpos p) (Zpos p - 1) = 0 ->
  0 <= Hwy.ShiftCount_pos p /\ Zpos p = 2 ^ Hwy.ShiftCount_pos p.
Proof.
  induction p as [q IH | q IH | ]; intros Hland; cbn [Hwy.ShiftCount_pos].
  - exfalso. replace (Z.pos q~1 - 1) with (2 * Z.pos q) in Hland by lia.
    replace (Z.pos q~1) with (2 * Z.pos q + 1) in Hland by lia.
    rewrite land_odd_even in Hland. lia.
  - replace (Z.pos q~0 - 1) with (2 * (Z.pos q - 1) + 1) in Hland by lia.
    replace (Z.pos q~0) with (2 * Z.pos q) in Hland at 1 by lia.
    rewrite land_even_odd in Hland.
    destruct IH as [Hk Hq]; [lia |]. split; [lia |].
    rewrite Z.pow_add_r by lia. lia.
  - split; [lia | reflexivity].
Qed.

Lemma ShiftCount_pow2 (kSize : Z) :
  1 <= kSize -> Z.land kSize (kSize - 1) = 0 ->
  0 <= Hwy.ShiftCount kSize /\ kSize = 2 ^ Hwy.ShiftCount kSize.
Proof.
  intros Hk Hland. destruct kSize as [| p | p]; try lia.
  now apply ShiftCount_pos_pow2.
Qed.

(** The overflow test of [Alloc], whichever branch computes it. *)
Lemma overflow_check (kSize num : Z) :
  1 <= kSize -> 0 <= num ->
  (SizeT.wrap (num * kSize) / kSize = num <-> num * kSize <= SizeT.max).
Proof.
  intros Hk Hn. split.
  - intros Hcheck.
    destruct (Z_le_gt_dec (num * kSize) SizeT.max) as [Hle | Hgt]; [exact Hle |].
    exfalso. pose proof (wrap_range (num * kSize)) as Hr.
    assert (SizeT.wrap (num * kSize) / kSize < num).
    { apply Z.div_lt_upper_bound; lia. }
    lia.
  - intros Hle. rewrite wrap_small by nia.
    apply Z.div_mul. lia.
Qed.

Lemma Alloc_bytes_check (kSize num : Z) :
  1 <= kSize -> 0 <= num ->
  let kIsPow2 := Z.land kSize (kSize - 1) =? 0 in
  let kBits := Hwy.ShiftCount kSize in
  let bytes := if kIsPow2 then SizeT.shl num kBits else SizeT.mul num kSize in
  let check := if kIsPow2 then SizeT.shr bytes kBits else SizeT.div bytes kSize in
  bytes = SizeT.wrap (num * kSize) /\ check = SizeT.wrap (num * kSize) / kSize.
Proof.
  intros Hk Hn. cbv zeta.
  destruct (Z.land kSize (kSize - 1) =? 0) eqn:Hpow.
  - apply Z.eqb_eq in Hpow.
    destruct (ShiftCount_pow2 kSize Hk Hpow) as [Hb Hsz].
    unfold SizeT.shl, SizeT.shr.
    rewrite Z.shiftl_mul_pow2, Z.shiftr_div_pow2 by assumption.
    rewrite <- Hsz. split; reflexivity.
  - unfold SizeT.mul, SizeT.div. split; reflexivity.
Qed.

(** ** Geometry facts *)

Lemma geometry_ok_facts (g : Geometry) :
  geometry_ok g = true ->
  1 <= StepBytes g /\ QuantumBytes g <= MaxQuantumBytes /\
  QuantumSteps g = QuantumBytes g / StepBytes g /\
  QuantumSteps g = 2 ^ Z.log2 (QuantumSteps g) /\
  1 <= QuantumSteps g /\
  QuantumSteps g * StepBytes g <= QuantumBytes g.
Proof.
  unfold geometry_ok. rewrite !andb_true_iff.
  intros [[[Hs Hq] Hd] Hp].
  apply Z.leb_le in Hs, Hq. apply Z.eqb_eq in Hd, Hp.
  assert (1 <= QuantumSteps g).
  { rewrite Hp. pose proof (Z.log2_nonneg (QuantumSteps g)).
    assert (0 < 2 ^ Z.log2 (QuantumSteps g)) by (apply Z.pow_pos_nonneg; lia).
    lia. }
  repeat split; try assumption.
  rewrite Hd. rewrite Z.mul_comm. apply Z.mul_div_le. lia.
Qed.

Lemma land_row_mask (g : Geometry) (r : Z) :
  geometry_ok g = true -> 0 <= r ->
  Z.land r (QuantumSteps g - 1) = r mod QuantumSteps g.
Proof.
  intros Hg Hr. destruct (geometry_ok_facts g Hg) as (_ & _ & _ & Hp & _ & _).
  rewrite Hp at 1 2.
  replace (2 ^ Z.log2 (QuantumSteps g) - 1) with (Z.ones (Z.log2 (QuantumSteps g)))
    by (rewrite Z.ones_equiv; lia).
  apply Z.land_ones. apply Z.log2_nonneg.
Qed.

(** ** The constructor and [Row] *)

Lemma to_uint32_StepBytes (g : Geometry) :
  geometry_ok g = true -> to_uint32 (StepBytes g) = StepBytes g.
Proof.
  intros Hg. destruct (geometry_ok_facts g Hg) as (Hs & Hq & _ & _ & H1 & Hle).
  unfold to_uint32. apply Z.mod_small.
  unfold MaxQuantumBytes in Hq. nia.
Qed.

Lemma row_mask_value (g : Geometry) :
  geometry_ok g = true -> SizeT.sub (QuantumSteps g) 1 = QuantumSteps g - 1.
Proof.
  intros Hg. destruct (geometry_ok_facts g Hg) as (Hs & Hq & _ & _ & H1 & Hle).
  unfold SizeT.sub. apply wrap_small.
  rewrite max_value. unfold MaxQuantumBytes in Hq. nia.
Qed.

Lemma RowPtr_ctor_fields (g : Geometry) (kSize : Z) (debug : bool)
    (row0 cols stride : Z) (rp : RowPtr) :
  geometry_ok g = true ->
  RowPtr_ctor kSize debug g row0 cols stride = Some rp ->
  row0_ rp = row0 /\ stride_ rp = stride /\ step_ rp = StepBytes g /\
  cols_ rp = to_uint32 cols /\
  row_mask_ rp =
    (if debug && (stride <? StrideForCyclicOffsets kSize cols)
     then 0 else QuantumSteps g - 1).
Proof.
  intros Hg. unfold RowPtr_ctor.
  rewrite (row_mask_value g Hg), (to_uint32_StepBytes g Hg).
  repeat case_match; intros Hrp; inversion Hrp; subst; cbn; auto.
Qed.

Lemma RowPtr_ctor_succeeds (g : Geometry) (kSize : Z) (debug : bool)
    (row0 cols stride : Z) :
  geometry_ok g = true -> cols <= stride ->
  is_Some (RowPtr_ctor kSize debug g row0 cols stride).
Proof.
  intros Hg Hcs. unfold RowPtr_ctor.
  rewrite (row_mask_value g Hg).
  destruct (geometry_ok_facts g Hg) as (Hs & Hq & _ & _ & H1 & Hle).
  assert (Hc : (cols <=? stride) = true) by (apply Z.leb_le; lia).
  assert (Hm : (QuantumSteps g - 1 =? SizeT.max) = false).
  { apply Z.eqb_neq. rewrite max_value. unfold MaxQuantumBytes in Hq. nia. }
  unfold dassert_fails. rewrite Hc, Hm. cbn.
  rewrite !andb_false_r. eauto.
Qed.

(** With the cyclic mask in place the pad is [(r mod QuantumSteps) *
    StepBytes], which stays below [QuantumBytes]. *)
Lemma pad_bytes_cyclic (g : Geometry) (rp : RowPtr) (r : Z) :
  geometry_ok g = true ->
  step_ rp = StepBytes g -> row_mask_ rp = QuantumSteps g - 1 -> 0 <= r ->
  pad_bytes rp r = (r mod QuantumSteps g) * StepBytes g /\
  0 <= pad_bytes rp r < QuantumBytes g.
Proof.
  intros Hg Hstep Hmask Hr.
  destruct (geometry_ok_facts g Hg) as (Hs & Hq & _ & _ & H1 & Hle).
  unfold pad_bytes, SizeT.mul. rewrite Hstep, Hmask, (land_row_mask g r Hg Hr).
  pose proof (Z.mod_pos_bound r (QuantumSteps g) ltac:(lia)) as Hmod.
  assert (Hb : 0 <= r mod QuantumSteps g * StepBytes g < QuantumBytes g) by nia.
  rewrite wrap_small; [auto |].
  rewrite max_value. unfold MaxQuantumBytes in Hq. lia.
Qed.

(** With the mask cleared there is no pad. *)
Lemma pad_bytes_disabled (rp : RowPtr) (r : Z) :
  row_mask_ rp = 0 -> pad_bytes rp r = 0.
Proof.
  intros Hmask. unfold pad_bytes, SizeT.mul. rewrite Hmask, Z.land_0_r.
  reflexivity.
Qed.

Lemma Row_value (g : Geometry) (debug : bool) (rp : RowPtr) (r : Z) :
  pad_bytes rp r < QuantumBytes g ->
  0 <= stride_ rp * r <= SizeT.max ->
  Row debug g rp r = Some (row0_ rp + stride_ rp * r - pad_bytes rp r).
Proof.
  intros Hpad Hmul. unfold Row, dassert_fails, SizeT.mul at 1.
  assert (Hc : (pad_bytes rp r <? QuantumBytes g) = true) by (apply Z.ltb_lt; lia).
  rewrite Hc, andb_false_r. rewrite wrap_small by assumption. reflexivity.
Qed.

(** X22. In elements of [T]: for a [RowPtr] constructed with a stride not
    below [StrideForCyclicOffsets(cols)] and a row index [r] (with [r] and
    [stride * (r + QuantumSteps)] representable, so that no [size_t]
    product wraps), the [T*] that [Row(r)] returns is [row0 + stride * r]
    minus [(r mod QuantumSteps) * StepBytes] elements, which is
    [sizeof(T)] times as many bytes; the count is a multiple of
    [StepBytes] and below [QuantumBytes]; and [Row(r + QuantumSteps) -
    Row(r) = stride * QuantumSteps]. *)
Theorem Row_pad_in_elements (g : Geometry) (kSize : Z) (debug : bool)
    (row0 cols stride : Z) (rp : RowPtr) (r : Z) :
  geometry_ok g = true -> elem_size_ok kSize = true ->
  RowPtr_ctor kSize debug g row0 cols stride = Some rp ->
  StrideForCyclicOffsets kSize cols <= stride ->
  0 <= stride -> 0 <= r -> r + QuantumSteps g <= SizeT.max ->
  stride * (r + QuantumSteps g) <= SizeT.max ->
  exists a b pad,
    Row debug g rp r = Some a /\
    Row debug g rp (r + QuantumSteps g) = Some b /\
    pad = (r mod QuantumSteps g) * StepBytes g /\
    a = row0 + stride * r - pad /\
    byte_addr kSize 0 (row0 + stride * r) - byte_addr kSize 0 a = kSize * pad /\
    (StepBytes g | pad) /\
    0 <= pad < QuantumBytes g /\
    b - a = stride * QuantumSteps g.
Proof.
  intros Hg _ Hctor Hsfco Hs Hr Hrq Hmul.
  destruct (RowPtr_ctor_fields g kSize debug row0 cols stride rp Hg Hctor)
    as (Hrow0 & Hstride & Hstep & _ & Hmask).
  assert (Hlt : (stride <? StrideForCyclicOffsets kSize cols) = false)
    by (apply Z.ltb_ge; lia).
  rewrite Hlt, andb_false_r in Hmask.
  destruct (geometry_ok_facts g Hg) as (Hsb & Hq & _ & _ & H1 & Hle).
  destruct (pad_bytes_cyclic g rp r Hg Hstep Hmask Hr) as [Hpad Hpadlt].
  destruct (pad_bytes_cyclic g rp (r + QuantumSteps g) Hg Hstep Hmask ltac:(lia))
    as [Hpad' Hpadlt'].
  assert (Hper : (r + QuantumSteps g) mod QuantumSteps g = r mod QuantumSteps g).
  { rewrite <- (Z.mul_1_l (QuantumSteps g)) at 1. apply Z.mod_add. lia. }
  rewrite Hper in Hpad'.
  exists (row0 + stride * r - pad_bytes rp r),
         (row0 + stride * (r + QuantumSteps g) - pad_bytes rp (r + QuantumSteps g)),
         (pad_bytes rp r).
  rewrite <- Hrow0, <- Hstride.
  split; [apply Row_value; [lia | subst stride; nia] |].
  split; [apply Row_value; [lia | subst stride; nia] |].
  split; [exact Hpad |].
  split; [reflexivity |].
  split; [unfold byte_addr; lia |].
  split; [rewrite Hpad; apply Z.divide_factor_r |].
  split; [exact Hpadlt |].
  rewrite Hpad, Hpad'. lia.
Qed.

Lemma Row_pad_in_elements_witness :
  exists a b pad,
    Row false geometry_4k (mkRowPtr 1000 2048 64 10 63) 70 = Some a /\
    Row false geometry_4k (mkRowPtr 1000 2048 64 10 63) (70 + 64) = Some b /\
    pad = (70 mod 64) * 64 /\
    a = 1000 + 2048 * 70 - pad /\
    byte_addr 4 0 (1000 + 2048 * 70) - byte_addr 4 0 a = 4 * pad /\
    (64 | pad) /\
    0 <= pad < 4096 /\
    b - a = 2048 * 64.
Proof.
  apply (Row_pad_in_elements geometry_4k 4 false 1000 10 2048
           (mkRowPtr 1000 2048 64 10 63) 70).
  - reflexivity.
  - reflexivity.
  - reflexivity.
  - vm_compute. discriminate.
  - lia.
  - lia.
  - vm_compute. discriminate.
  - vm_compute. discriminate.
Defined.

(** C1, on a float matrix.  [Row] subtracts [pad_bytes], the count
    [(r & row_mask_) * step_] that its name and its assertion
    [pad_bytes < QuantumBytes()] treat as bytes, from the [float*]
    [row0_ + stride_ * r].  With 64-byte steps, 64 steps per quantum and
    the stride [StrideForCyclicOffsets<float>(8) = 2048], in either build,
    [Row(1)] is 64 elements, that is 256 bytes, before [row0 + stride],
    not the [(1 mod 64) * 64 = 64] bytes of the stated formula; and
    [Row(63)] is pulled forward by 16128 bytes, more than [QuantumBytes]. *)
Theorem Row_pad_scaled_by_element_size (debug : bool) (base row0 : Z) :
  let rp := mkRowPtr row0 2048 64 8 63 in
  StrideForCyclicOffsets 4 8 = 2048 /\
  RowPtr_ctor 4 debug geometry_4k row0 8 2048 = Some rp /\
  Row debug geometry_4k rp 1 = Some (row0 + 2048 * 1 - 64) /\
  byte_addr 4 base (row0 + 2048 * 1 - 64)
    = byte_addr 4 base (row0 + 2048 * 1) - 256 /\
  byte_addr 4 base (row0 + 2048 * 1 - 64)
    <> byte_addr 4 base (row0 + 2048 * 1) - (1 mod 64) * 64 /\
  Row debug geometry_4k rp 63 = Some (row0 + 2048 * 63 - 4032) /\
  byte_addr 4 base (row0 + 2048 * 63)
    - byte_addr 4 base (row0 + 2048 * 63 - 4032) = 16128 /\
  QuantumBytes geometry_4k < 16128.
Proof.
  cbv zeta. unfold byte_addr.
  change (1 mod 64) with 1.
  destruct debug; repeat split; try reflexivity; lia.
Qed.

(** ** [StrideForCyclicOffsets] *)

Lemma StrideForCyclicOffsets_value (kSize cols : Z) :
  elem_size_ok kSize = true -> 0 <= cols ->
  cols + 2 * (MaxQuantumBytes / kSize) <= SizeT.max ->
  1 <= MaxQuantumBytes / kSize /\
  StrideForCyclicOffsets kSize cols =
    ceil_to cols (MaxQuantumBytes / kSize) + MaxQuantumBytes / kSize.
Proof.
  unfold elem_size_ok. rewrite andb_true_iff, !Z.leb_le.
  intros [Hk1 Hk2] Hc Hfit.
  set (q := MaxQuantumBytes / kSize) in *.
  assert (Hq : 1 <= q).
  { subst q. apply Z.div_le_lower_bound; lia. }
  split; [exact Hq |].
  destruct (ceil_to_spec cols q ltac:(lia)) as [_ Hceil].
  unfold StrideForCyclicOffsets, Hwy.RoundUpTo, Hwy.DivCeil.
  unfold SizeT.div, SizeT.add, SizeT.sub, SizeT.mul. fold q.
  rewrite (wrap_small (cols + q)) by lia.
  rewrite (wrap_small (cols + q - 1)) by lia.
  change ((cols + q - 1) / q * q) with (ceil_to cols q).
  rewrite (wrap_small (ceil_to cols q)) by lia.
  apply wrap_small. lia.
Qed.





(** For elements of at most 4 bytes (BF16, float) and at least one column
    a step does not exceed the stride on any geometry. *)
Lemma step_fits_small_elements (g : Geometry) (kSize cols : Z) :
  geometry_ok g = true -> 1 <= kSize <= 4 -> 1 <= cols ->
  cols + 2 * (MaxQuantumBytes / kSize) <= SizeT.max ->
  QuantumSteps g = 1 \/ StepBytes g <= StrideForCyclicOffsets kSize cols.
Proof.
  intros Hg Hk Hc Hfit.
  assert (Hek : elem_size_ok kSize = true).
  { unfold elem_size_ok, MaxQuantumBytes. apply andb_true_iff.
    split; apply Z.leb_le; lia. }
  destruct (StrideForCyclicOffsets_value kSize cols Hek ltac:(lia) Hfit) as [Hq Hval].
  destruct (ceil_to_spec cols (MaxQuantumBytes / kSize) ltac:(lia)) as [[k Hk'] Hceil].
  destruct (geometry_ok_facts g Hg) as (Hsb & HQ & _ & _ & H1 & Hle).
  assert (Hq4 : 1024 <= MaxQuantumBytes / kSize).
  { unfold MaxQuantumBytes. apply Z.div_le_lower_bound; lia. }
  destruct (Z.eq_dec (QuantumSteps g) 1) as [Hone | Hne]; [left; exact Hone | right].
  rewrite Hval. unfold MaxQuantumBytes in HQ.
  assert (1 <= k) by nia.
  nia.
Qed.

(** An element type of 256 bytes, which no [RowPtr] alias has, is outside
    that range: with one column the stride is 32 elements, and with
    64-byte steps [Row(1)] is [row0 + 32 - 64]. *)
Lemma Row_before_row0 :
  StrideForCyclicOffsets 256 1 = 32 /\
  RowPtr_ctor 256 true geometry_4k 1000 1 (StrideForCyclicOffsets 256 1)
    = Some (mkRowPtr 1000 32 64 1 63) /\
  Row true geometry_4k (mkRowPtr 1000 32 64 1 63) 1 = Some 968 /\
  ~ (exists a, Row true geometry_4k (mkRowPtr 1000 32 64 1 63) 1 = Some a /\ 1000 <= a).
Proof.
  repeat split; try reflexivity.
  intros [a [Ha Hle]]. vm_compute in Ha. inversion Ha; subst. lia.
Qed.

(** ** Strides below [StrideForCyclicOffsets] *)

(** In a debug build the constructor clears the mask of a stride below
    [StrideForCyclicOffsets(cols)], and rows are exactly [stride] apart. *)
Lemma RowPtr_debug_disables_pad (g : Geometry) (kSize : Z)
    (row0 cols stride r : Z) :
  geometry_ok g = true ->
  cols <= stride -> stride < StrideForCyclicOffsets kSize cols ->
  0 <= stride * r <= SizeT.max ->
  exists rp,
    RowPtr_ctor kSize true g row0 cols stride = Some rp /\
    row_mask_ rp = 0 /\
    Row true g rp r = Some (row0 + stride * r).
Proof.
  intros Hg Hcs Hlt Hmul.
  destruct (RowPtr_ctor_succeeds g kSize true row0 cols stride Hg Hcs) as [rp Hctor].
  destruct (RowPtr_ctor_fields g kSize true row0 cols stride rp Hg Hctor)
    as (Hrow0 & Hstride & _ & _ & Hmask).
  assert (Hb : (stride <? StrideForCyclicOffsets kSize cols) = true)
    by (apply Z.ltb_lt; lia).
  rewrite Hb in Hmask. cbn in Hmask.
  destruct (geometry_ok_facts g Hg) as (Hsb & _ & _ & _ & H1 & Hle).
  exists rp. split; [exact Hctor |]. split; [exact Hmask |].
  rewrite (Row_value g true rp r).
  - rewrite (pad_bytes_disabled rp r Hmask), Hrow0, Hstride. f_equal. lia.
  - rewrite (pad_bytes_disabled rp r Hmask). nia.
  - rewrite Hstride. exact Hmul.
Qed.

(** C7, at a release build.  [row_mask_ = 0] sits inside [if constexpr
    (HWY_IS_DEBUG_BUILD)]: without it, the two-argument constructor of a
    float matrix of 8 columns (stride 8, far below
    [StrideForCyclicOffsets(8) = 2048]) keeps the mask 63, and [Row(1)] is
    [row0 + 8 - 64], that is 56 elements before [row0]. *)
Theorem RowPtr_release_keeps_pad :
  StrideForCyclicOffsets 4 8 = 2048 /\
  RowPtr_ctor2 4 false geometry_4k 1000 8 = Some (mkRowPtr 1000 8 64 8 63) /\
  Row false geometry_4k (mkRowPtr 1000 8 64 8 63) 1 = Some (1000 + 8 * 1 - 64) /\
  Row false geometry_4k (mkRowPtr 1000 8 64 8 63) 1 <> Some (1000 + 8 * 1).
Proof.
  repeat split; try reflexivity. vm_compute. discriminate.
Qed.

(** ** [View] *)

Lemma RowPtr_wf_facts (g : Geometry) (rp : RowPtr) :
  RowPtr_wf g rp = true ->
  step_ rp = to_uint32 (StepBytes g) /\
  (row_mask_ rp = 0 \/ row_mask_ rp = QuantumSteps g - 1) /\
  0 <= cols_ rp < 2 ^ 32 /\ cols_ rp <= stride_ rp /\
  0 <= stride_ rp <= SizeT.max.
Proof.
  unfold RowPtr_wf, SizeT.in_range.
  rewrite !andb_true_iff, orb_true_iff, !Z.eqb_eq, !Z.leb_le, Z.ltb_lt.
  tauto.
Qed.

Lemma Row_wf_value (g : Geometry) (debug : bool) (rp : RowPtr) (r : Z) :
  geometry_ok g = true -> RowPtr_wf g rp = true ->
  0 <= r -> stride_ rp * r <= SizeT.max ->
  Row debug g rp r = Some (row0_ rp + stride_ rp * r - pad_bytes rp r).
Proof.
  intros Hg Hwf Hr Hmul.
  destruct (RowPtr_wf_facts g rp Hwf) as (Hstep & Hmask & _ & _ & Hs).
  rewrite (to_uint32_StepBytes g Hg) in Hstep.
  destruct (geometry_ok_facts g Hg) as (Hsb & _ & _ & _ & H1 & Hle).
  apply Row_value; [| nia].
  destruct Hmask as [Hmask | Hmask].
  - rewrite (pad_bytes_disabled rp r Hmask). nia.
  - apply (pad_bytes_cyclic g rp r Hg Hstep Hmask Hr).
Qed.

(** The constructor and [SetStride] leave a well-formed [RowPtr]. *)
Lemma RowPtr_ctor_wf (g : Geometry) (kSize : Z) (debug : bool)
    (row0 cols stride : Z) (rp : RowPtr) :
  geometry_ok g = true -> 0 <= cols <= stride -> stride <= SizeT.max ->
  RowPtr_ctor kSize debug g row0 cols stride = Some rp ->
  RowPtr_wf g rp = true.
Proof.
  intros Hg Hc Hs Hctor.
  destruct (RowPtr_ctor_fields g kSize debug row0 cols stride rp Hg Hctor)
    as (_ & Hstride & Hstep & Hcols & Hmask).
  assert (Hu : 0 <= to_uint32 cols < 2 ^ 32)
    by (unfold to_uint32; apply Z.mod_pos_bound; lia).
  assert (Hle : to_uint32 cols <= cols)
    by (unfold to_uint32; apply Z.mod_le; lia).
  unfold RowPtr_wf, SizeT.in_range.
  rewrite Hstride, Hstep, Hcols, Hmask, (to_uint32_StepBytes g Hg).
  split_andb; try lia.
  destruct (debug && _); auto.
Qed.

Lemma SetStride_wf (g : Geometry) (debug : bool) (rp rp' : RowPtr) (stride : Z) :
  RowPtr_wf g rp = true -> cols_ rp <= stride <= SizeT.max ->
  SetStride debug rp stride = Some rp' ->
  RowPtr_wf g rp' = true /\ row_mask_ rp' = 0 /\ stride_ rp' = stride.
Proof.
  intros Hwf Hs. unfold SetStride. destruct (dassert_fails _ _); [discriminate |].
  intros Hrp'. inversion Hrp'; subst; clear Hrp'. cbn.
  destruct (RowPtr_wf_facts g rp Hwf) as (Hstep & _ & Hcols & _ & _).
  split; [| auto].
  unfold RowPtr_wf, SizeT.in_range. cbn.
  split_andb; auto; lia.
Qed.

(** C10. For a [RowPtr] with column count [cols_] and [r], [c], [w] with
    [c < cols_] and [w <= cols_ - c], [View(r, c, w)] returns a view whose
    row-0 pointer is [Row(r) + c], whose column count is [w] and whose
    stride is the parent's. *)
Theorem View_subrange (g : Geometry) (kSize : Z) (debug : bool)
    (rp : RowPtr) (r c w : Z) :
  geometry_ok g = true -> RowPtr_wf g rp = true ->
  0 <= r -> stride_ rp * r <= SizeT.max ->
  0 <= c -> c < cols_ rp -> 0 <= w -> w <= cols_ rp - c ->
  exists p v,
    Row debug g rp r = Some p /\
    View kSize debug g rp r c w = Some v /\
    row0_ v = p + c /\ Cols v = w /\ Stride v = Stride rp.
Proof.
  intros Hg Hwf Hr Hmul Hc0 Hc Hw0 Hw.
  destruct (RowPtr_wf_facts g rp Hwf) as (_ & _ & Hcols & Hcs & Hs).
  pose proof (Row_wf_value g debug rp r Hg Hwf Hr Hmul) as HRow.
  destruct (RowPtr_ctor_succeeds g kSize debug
              (row0_ rp + stride_ rp * r - pad_bytes rp r + c) w (stride_ rp) Hg
              ltac:(lia)) as [v Hv].
  destruct (RowPtr_ctor_fields g kSize debug _ _ _ v Hg Hv)
    as (Hv0 & Hvs & _ & Hvc & _).
  exists (row0_ rp + stride_ rp * r - pad_bytes rp r), v.
  split; [exact HRow |].
  split.
  - unfold View, dassert_fails, SizeT.sub.
    assert (H1 : (c <? cols_ rp) = true) by (apply Z.ltb_lt; lia).
    rewrite wrap_small by (rewrite max_value; lia).
    assert (H2 : (w <=? cols_ rp - c) = true) by (apply Z.leb_le; lia).
    rewrite H1, H2, !andb_false_r, HRow. exact Hv.
  - unfold Cols, Stride. rewrite Hv0, Hvs, Hvc. repeat split.
    unfold to_uint32. apply Z.mod_small. lia.
Qed.

Lemma View_subrange_witness :
  exists p v,
    Row true geometry_4k (mkRowPtr 1000 2048 64 10 63) 3 = Some p /\
    View 4 true geometry_4k (mkRowPtr 1000 2048 64 10 63) 3 2 5 = Some v /\
    row0_ v = p + 2 /\ Cols v = 5 /\ Stride v = Stride (mkRowPtr 1000 2048 64 10 63).
Proof.
  apply (View_subrange geometry_4k 4 true (mkRowPtr 1000 2048 64 10 63) 3 2 5).
  - reflexivity.
  - reflexivity.
  - lia.
  - vm_compute. discriminate.
  - lia.
  - cbn. lia.
  - lia.
  - cbn. lia.
Defined.

(** ** [Alloc] *)

Lemma QuantumBytes_pos (g : Geometry) : geometry_ok g = true -> 1 <= QuantumBytes g.
Proof.
  intros Hg. destruct (geometry_ok_facts g Hg) as (Hs & _ & _ & _ & H1 & Hle). nia.
Qed.

(** C2. [Alloc<T>(num)] returns an empty handle exactly when [num *
    sizeof(T)] overflows [size_t], and then allocates nothing; otherwise it
    returns an owning handle to a quantum-aligned buffer whose byte size is
    a multiple of [QuantumBytes] and at least [num * sizeof(T)], with a
    free function in its deleter. *)
Theorem Alloc_empty_iff_overflow (g : Geometry) (kSize num : Z) (h : Heap) :
  geometry_ok g = true ->
  1 <= kSize <= SizeT.max -> 0 <= num <= SizeT.max ->
  let a := fst (Alloc g kSize num h) in
  let h' := snd (Alloc g kSize num h) in
  (ptr_get a = None <-> SizeT.max < num * kSize) /\
  (SizeT.max < num * kSize -> a = AlignedPtr_empty /\ h' = h) /\
  (num * kSize <= SizeT.max ->
   exists p size,
     ptr_get a = Some p /\ (QuantumBytes g | p) /\
     buffer_bytes a h' = Some size /\
     (QuantumBytes g | size) /\ num * kSize <= size /\
     is_Some (free_func_ (get_deleter a))).
Proof.
  intros Hg Hk Hn. cbv zeta.
  pose proof (QuantumBytes_pos g Hg) as Hq.
  destruct (Alloc_bytes_check kSize num ltac:(lia) ltac:(lia)) as [Hbytes Hcheck].
  cbv zeta in Hbytes, Hcheck.
  pose proof (overflow_check kSize num ltac:(lia) ltac:(lia)) as Hov.
  unfold Alloc. cbv zeta. rewrite Hcheck, Hbytes.
  destruct (Z.eqb_spec (SizeT.wrap (num * kSize) / kSize) num) as [Heq | Hne]; cbn.
  - apply Hov in Heq. rewrite (wrap_small (num * kSize)) by nia.
    split; [split; [discriminate | lia] |].
    split; [lia |]. intros _.
    destruct (ceil_to_spec (brk h) (QuantumBytes g) ltac:(lia)) as [Hpd _].
    destruct (ceil_to_spec (num * kSize) (QuantumBytes g) ltac:(lia)) as [Hsd Hsz].
    exists (ceil_to (brk h) (QuantumBytes g)), (ceil_to (num * kSize) (QuantumBytes g)).
    unfold buffer_bytes. cbn. rewrite lookup_insert_eq.
    repeat split; eauto; lia.
  - assert (Hgt : SizeT.max < num * kSize).
    { destruct (Z_le_gt_dec (num * kSize) SizeT.max) as [Hle | Hgt]; [| lia].
      apply Hov in Hle. contradiction. }
    split; [split; [intros _; exact Hgt | reflexivity] |].
    split; [auto | lia].
Qed.

Lemma Alloc_empty_iff_overflow_witness :
  let a := fst (Alloc geometry_4k 4 5 (mkHeap ∅ 100)) in
  let h' := snd (Alloc geometry_4k 4 5 (mkHeap ∅ 100)) in
  (ptr_get a = None <-> SizeT.max < 5 * 4) /\
  (SizeT.max < 5 * 4 -> a = AlignedPtr_empty /\ h' = mkHeap ∅ 100) /\
  (5 * 4 <= SizeT.max ->
   exists p size,
     ptr_get a = Some p /\ (4096 | p) /\
     buffer_bytes a h' = Some size /\
     (4096 | size) /\ 5 * 4 <= size /\
     is_Some (free_func_ (get_deleter a))).
Proof.
  apply (Alloc_empty_iff_overflow geometry_4k 4 5 (mkHeap ∅ 100)).
  - reflexivity.
  - rewrite max_value. lia.
  - rewrite max_value. lia.
Defined.

Example Alloc_float_overflow :
  fst (Alloc geometry_4k 4 (2 ^ 62) (mkHeap ∅ 100)) = AlignedPtr_empty.
Proof. reflexivity. Qed.

Example Alloc_odd_size_overflow :
  fst (Alloc geometry_4k 12 (2 ^ 62) (mkHeap ∅ 100)) = AlignedPtr_empty.
Proof. reflexivity. Qed.

Example Alloc_float_five :
  ptr_get (fst (Alloc geometry_4k 4 5 (mkHeap ∅ 100))) = Some 4096.
Proof. reflexivity. Qed.

(** * Properties of the weight storage *)

Local Open Scope nat_scope.

(** ** [Load] *)

Section LoadProperties.
Context `{ext : Externals}.

(** C4. [Load] of a path that does not exist aborts the process; [Load] of
    an existing file without a table of contents, when the weight type or
    the model type the caller passes is unknown, returns a nonzero error
    code (the line number 85) and leaves the storage and the tokenizer as
    they were. *)
Theorem Load_missing_file_or_type (weights : Path) (model_type : Model)
    (weight_type : Type_) (wrapping : PromptWrapping) (pool : ThreadPool)
    (tokenizer_proto : option string) (st : ModelWeightsStorage) :
  (Exists weights = false ->
   exists msg,
     Load weights model_type weight_type wrapping pool tokenizer_proto st
     = Aborts msg) /\
  (Exists weights = true ->
   HaveToc (ReadFromBlobStore_open weights) = false ->
   weight_type = kUnknown \/ model_type = UNKNOWN ->
   exists code : BlobError,
     Load weights model_type weight_type wrapping pool tokenizer_proto st
     = Returns (code, st, tokenizer_proto) /\ code <> 0%Z).
Proof.
  split.
  - intros Hex. unfold Load. rewrite Hex. cbn. eauto.
  - intros Hex Htoc Hunk. unfold Load. rewrite Hex, Htoc. cbn.
    exists 85%Z. split; [| discriminate].
    destruct Hunk as [-> | ->]; [reflexivity |].
    destruct weight_type; reflexivity.
Qed.

(** C9. On a weights file that carries a table of contents, two calls of
    [Load] that differ only in [model_type], [weight_type] and [wrapping]
    have the same outcome: the same returned error code, the same
    resulting storage (configuration and tensors), the same tokenizer. *)
Theorem Load_toc_ignores_types (weights : Path)
    (model_type1 model_type2 : Model) (weight_type1 weight_type2 : Type_)
    (wrapping1 wrapping2 : PromptWrapping) (pool : ThreadPool)
    (tokenizer_proto : option string) (st : ModelWeightsStorage) :
  HaveToc (ReadFromBlobStore_open weights) = true ->
  Load weights model_type1 weight_type1 wrapping1 pool tokenizer_proto st
  = Load weights model_type2 weight_type2 wrapping2 pool tokenizer_proto st.
Proof.
  intros Htoc. unfold Load. rewrite Htoc. reflexivity.
Qed.

End LoadProperties.

Lemma Load_missing_file_or_type_witness :
  (exists msg,
     Load (ext := example_externals) (mkPath "absent.sbs") UNKNOWN kUnknown 0%Z 0
          None (ModelWeightsStorage_new example_config)
     = Aborts msg) /\
  (exists code : BlobError,
     Load (ext := example_externals) (mkPath "legacy.sbs") UNKNOWN kF32 0%Z 0
          None (ModelWeightsStorage_new example_config)
     = Returns (code, ModelWeightsStorage_new example_config, None) /\ code <> 0%Z).
Proof.
  split.
  - apply (proj1 (Load_missing_file_or_type (ext := example_externals)
                    (mkPath "absent.sbs") UNKNOWN kUnknown 0%Z 0 None
                    (ModelWeightsStorage_new example_config))).
    reflexivity.
  - apply (proj2 (Load_missing_file_or_type (ext := example_externals)
                    (mkPath "legacy.sbs") UNKNOWN kF32 0%Z 0 None
                    (ModelWeightsStorage_new example_config))).
    + reflexivity.
    + reflexivity.
    + right. reflexivity.
Defined.

Lemma Load_toc_ignores_types_witness :
  Load (ext := example_externals) (mkPath "toc.sbs") UNKNOWN kUnknown 0%Z 0
       (Some "proto"%string) (ModelWeightsStorage_new example_config)
  = Load (ext := example_externals) (mkPath "toc.sbs") (KnownModel 3) kNUQ 1%Z 0
       (Some "proto"%string) (ModelWeightsStorage_new example_config).
Proof.
  apply (Load_toc_ignores_types (ext := example_externals) (mkPath "toc.sbs")).
  reflexivity.
Defined.

(** The same two calls on a file without a table of contents differ. *)
Example Load_legacy_reads_types :
  Load (ext := example_externals) (mkPath "legacy.sbs") UNKNOWN kUnknown 0%Z 0
       None (ModelWeightsStorage_new example_config)
  <> Load (ext := example_externals) (mkPath "legacy.sbs") (KnownModel 3) kNUQ 1%Z 0
       None (ModelWeightsStorage_new example_config).
Proof. vm_compute. discriminate. Qed.

(** ** Which containers are live *)

Section LiveProperties.
Context `{ext : Externals}.

Lemma same_live_refl (st : ModelWeightsStorage) : same_live st st.
Proof. intros t. reflexivity. Qed.

Lemma same_live_trans (st1 st2 st3 : ModelWeightsStorage) :
  same_live st1 st2 -> same_live st2 st3 -> same_live st1 st3.
Proof. intros H12 H23 t. rewrite H23. apply H12. Qed.

Lemma adds_live_same (t : Type_) (st1 st2 st3 : ModelWeightsStorage) :
  adds_live t st1 st2 -> same_live st2 st3 -> adds_live t st1 st3.
Proof.
  intros (Hs & Ht & Ho) H23. split; [exact Hs |]. split.
  - rewrite H23. exact Ht.
  - intros t' Hne. rewrite H23. now apply Ho.
Qed.

Lemma same_adds_live (t : Type_) (st1 st2 st3 : ModelWeightsStorage) :
  same_live st1 st2 -> adds_live t st2 st3 -> adds_live t st1 st3.
Proof.
  intros H12 (Hs & Ht & Ho). split; [exact Hs |]. split; [exact Ht |].
  intros t' Hne. rewrite Ho by exact Hne. apply H12.
Qed.

Lemma same_live_fields (st st' : ModelWeightsStorage) :
  (is_Some (float_weights_ st') <-> is_Some (float_weights_ st)) ->
  (is_Some (bf16_weights_ st') <-> is_Some (bf16_weights_ st)) ->
  (is_Some (sfp_weights_ st') <-> is_Some (sfp_weights_ st)) ->
  (is_Some (nuq_weights_ st') <-> is_Some (nuq_weights_ st)) ->
  same_live st st'.
Proof.
  intros Hf Hb Hs Hn t. destruct t; cbn; try reflexivity;
    apply bool_decide_ext; assumption.
Qed.

Lemma on_member_is_Some {X : Type}
    (f : ModelWeightsPtrs -> X -> ModelWeightsPtrs * X)
    (w : option ModelWeightsPtrs) (x : X) :
  is_Some (fst (on_member f w x)) <-> is_Some w.
Proof.
  unfold on_member. destruct w as [p |]; [destruct (f p x) |]; cbn;
    split; intros H; try exact H; eauto; destruct H; discriminate.
Qed.

Lemma on_each_member_same_live {X : Type}
    (f : Type_ -> ModelWeightsPtrs -> X -> ModelWeightsPtrs * X)
    (st : ModelWeightsStorage) (x : X) :
  same_live st (fst (on_each_member f st x)).
Proof.
  unfold on_each_member.
  pose proof (on_member_is_Some (f kF32) (float_weights_ st) x) as H1.
  destruct (on_member (f kF32) (float_weights_ st) x) as [fw x1].
  pose proof (on_member_is_Some (f kBF16) (bf16_weights_ st) x1) as H2.
  destruct (on_member (f kBF16) (bf16_weights_ st) x1) as [bw x2].
  pose proof (on_member_is_Some (f kSFP) (sfp_weights_ st) x2) as H3.
  destruct (on_member (f kSFP) (sfp_weights_ st) x2) as [sw x3].
  pose proof (on_member_is_Some (f kNUQ) (nuq_weights_ st) x3) as H4.
  destruct (on_member (f kNUQ) (nuq_weights_ st) x3) as [nw x4].
  apply same_live_fields; assumption.
Qed.

Lemma on_each_member_storage_same_live
    (f : Type_ -> ModelWeightsPtrs -> list MatStorage ->
         ModelWeightsPtrs * list MatStorage)
    (st : ModelWeightsStorage) :
  same_live st (on_each_member_storage f st).
Proof.
  unfold on_each_member_storage.
  pose proof (on_each_member_same_live f st (model_storage_ st)) as H.
  destruct (on_each_member f st (model_storage_ st)) as [st' ms].
  intros t. rewrite <- (H t). destruct t; reflexivity.
Qed.

Lemma set_config_same_live (st : ModelWeightsStorage) (c : ModelConfig) :
  same_live st (set_config st c).
Proof. intros t. destruct t; reflexivity. Qed.

Lemma set_model_storage_same_live (st : ModelWeightsStorage) (ms : list MatStorage) :
  same_live st (set_model_storage st ms).
Proof. intros t. destruct t; reflexivity. Qed.

Lemma CreateForType_adds_live (t : Type_) (pool : ThreadPool)
    (st st' : ModelWeightsStorage) :
  CreateForType t pool st = Returns st' -> adds_live t st st'.
Proof.
  destruct t; cbn; intros H; inversion H; subst; clear H;
    (split; [reflexivity |]; split; [apply bool_decide_eq_true_2; eauto |]);
    intros t' Hne; destruct t'; cbn; congruence.
Qed.

Lemma CallForModelWeightT_same_live {S : Type}
    (func : ModelWeightsPtrs -> S -> Outcome (ModelWeightsPtrs * S))
    (st st' : ModelWeightsStorage) (s s' : S) :
  CallForModelWeightT func st s = Returns (st', s') -> same_live st st'.
Proof.
  unfold CallForModelWeightT.
  destruct (float_weights_ st) as [w |] eqn:Hf;
    [| destruct (bf16_weights_ st) as [w |] eqn:Hb;
       [| destruct (sfp_weights_ st) as [w |] eqn:Hs;
          [| destruct (nuq_weights_ st) as [w |] eqn:Hn; [| discriminate]]]];
    cbn; destruct (func w s) as [[w' s''] | |]; cbn; intros H; inversion H; subst;
    apply same_live_fields; cbn; rewrite ?Hf, ?Hb, ?Hs, ?Hn;
    split; intros; eauto.
Qed.

Lemma Load_tensors_adds_live (fet : ForEachType) (loader : ReadFromBlobStore)
    (scales : list float) (pool : ThreadPool) (tok : option string)
    (st : ModelWeightsStorage) (r : LoadResult) :
  Load_tensors fet loader scales pool tok st = Returns r ->
  adds_live (weight (config_ st)) st (r.1.2).
Proof.
  unfold Load_tensors.
  destruct (CreateForType (weight (config_ st)) pool st) as [st1 | |] eqn:Hc;
    cbn; try discriminate.
  apply CreateForType_adds_live in Hc.
  destruct (CallForModelWeightT _ st1 loader) as [[st2 loader2] | |] eqn:Hcall;
    cbn; try discriminate.
  apply CallForModelWeightT_same_live in Hcall.
  destruct (ReadAll _ pool (model_storage_ st2)) as [err ms].
  set (st3 := set_model_storage st2 ms).
  set (st4 := fst (on_each_member _ st3 ())).
  assert (H4 : same_live st2 st4).
  { eapply same_live_trans; [apply set_model_storage_same_live |].
    apply on_each_member_same_live. }
  assert (H14 : adds_live (weight (config_ st)) st st4).
  { eapply adds_live_same; [| exact H4]. eapply adds_live_same; eassumption. }
  destruct (negb (err =? 0)%Z); intros H; inversion H; subst; cbn; [exact H14 |].
  eapply adds_live_same; [exact H14 |].
  eapply same_live_trans;
    [| destruct fet; try apply same_live_refl;
       apply on_each_member_storage_same_live].
  destruct (negb _); [apply on_each_member_same_live | apply same_live_refl].
Qed.

Lemma Allocate_adds_live (config : ModelConfig) (t : Type_) (pool : ThreadPool)
    (st st' : ModelWeightsStorage) :
  Allocate config t pool st = Returns st' -> adds_live t st st'.
Proof.
  unfold Allocate.
  destruct (CreateForType t pool _) as [st1 | |] eqn:Hc; cbn; try discriminate.
  intros H. inversion H; subst; clear H.
  apply CreateForType_adds_live in Hc.
  eapply adds_live_same; [| apply on_each_member_storage_same_live].
  eapply same_adds_live; [| exact Hc].
  eapply same_live_trans; apply set_config_same_live.
Qed.






End LiveProperties.



(** ** [RandInit] *)

Section RandInitProperties.
Context `{ext : Externals}.

Lemma draws_length (n : nat) (init : WeightInitializer) :
  length (fst (draws n init)) = n.
Proof.
  revert init. induction n as [| n IH]; intros init; cbn; [reflexivity |].
  destruct (draw init) as [v init']. specialize (IH init').
  destruct (draws n init') as [vs init'']. cbn in *. lia.
Qed.

Lemma draws_add (n1 n2 : nat) (init : WeightInitializer) :
  draws (n1 + n2) init =
  (fst (draws n1 init) ++ fst (draws n2 (snd (draws n1 init))),
   snd (draws n2 (snd (draws n1 init)))).
Proof.
  revert init. induction n1 as [| n1 IH]; intros init; cbn.
  - destruct (draws n2 init); reflexivity.
  - destruct (draw init) as [v init']. rewrite (IH init').
    destruct (draws n1 init') as [vs init'']. reflexivity.
Qed.

(** The loop writes the next [count] draws at [i], [i + 1], ... *)
Lemma WeightInitializer_loop_draws (count i : nat) (d : list Z)
    (init : WeightInitializer) :
  length d = i + count ->
  WeightInitializer_loop count i d init =
  Returns (take i d ++ fst (draws count init), snd (draws count init)).
Proof.
  revert i d init. induction count as [| count IH]; intros i d init Hlen;
    cbn [WeightInitializer_loop draws fst snd].
  - rewrite app_nil_r, take_ge by lia. reflexivity.
  - assert (Hlt : Nat.ltb i (length d) = true) by (apply Nat.ltb_lt; lia).
    rewrite Hlt. destruct (draw init) as [v init'].
    rewrite IH by (rewrite length_insert; lia).
    rewrite (take_S_r _ _ v) by (apply list_lookup_insert_eq; lia).
    rewrite take_insert_ge by lia.
    destruct (draws count init') as [vs init'']. cbn.
    rewrite <- app_assoc. reflexivity.
Qed.

Lemma WeightInitializer_call_draws (t : MatPtr) (init : WeightInitializer) :
  allocated t = true ->
  WeightInitializer_call t init =
  Returns (mkMatPtr (Name t) (NumElements t)
             (Some (fst (draws (NumElements t) init))) float_1,
           snd (draws (NumElements t) init)).
Proof.
  unfold allocated, WeightInitializer_call.
  destruct (data t) as [d |]; [| discriminate].
  intros Hlen. apply Nat.eqb_eq in Hlen.
  rewrite WeightInitializer_loop_draws by lia. cbn.
  rewrite take_0. reflexivity.
Qed.

Lemma ForEachTensor_list_draws (ts : list MatPtr) (init : WeightInitializer) :
  Forall (fun t => enumerated kLoadNoToc (Name t) = true -> allocated t = true) ts ->
  exists ts',
    ForEachTensor_list kLoadNoToc WeightInitializer_call ts init =
      Returns (ts', snd (draws (visited_elements kLoadNoToc ts) init)) /\
    Forall2 (randomized kLoadNoToc) ts ts' /\
    visited_data kLoadNoToc ts' = fst (draws (visited_elements kLoadNoToc ts) init).
Proof.
  revert init. induction ts as [| t rest IH]; intros init Hall.
  - exists []. cbn. repeat split. constructor.
  - inversion Hall as [| ? ? Ht Hrest]; subst.
    cbn [ForEachTensor_list visited_elements].
    rewrite draws_add.
    destruct (enumerated kLoadNoToc (Name t)) eqn:Hen.
    + rewrite (WeightInitializer_call_draws t init (Ht eq_refl)). cbn.
      destruct (IH (snd (draws (NumElements t) init)) Hrest)
        as (rest' & Hrun & Hrel & Hdata).
      rewrite Hrun. cbn. eexists. split; [reflexivity |]. split.
      * constructor; [| exact Hrel]. unfold randomized. rewrite Hen. cbn.
        repeat split. unfold allocated. cbn.
        rewrite draws_length. apply Nat.eqb_refl.
      * cbn. rewrite Hen. cbn. rewrite Hdata. reflexivity.
    + cbn. destruct (IH init Hrest) as (rest' & Hrun & Hrel & Hdata).
      rewrite Hrun. cbn. eexists. split; [reflexivity |]. split.
      * constructor; [| exact Hrel]. unfold randomized. rewrite Hen. reflexivity.
      * cbn. rewrite Hen. cbn. exact Hdata.
Qed.

(** C8. [RandInit] aborts unless the float container is live.  Otherwise,
    the tensors the traversal presents being allocated, it returns; every
    such tensor has scale 1.0f afterwards, and its elements are, in the
    order of the traversal, the values of successive calls [dist_(gen_)] of
    a [normal_distribution<float>(0.0f, 1.0f)] on the supplied generator,
    one call for each element, each call continuing from the state the
    previous one left.  The other tensors are as before. *)
Theorem RandInit_draws (gen : mt19937) (st : ModelWeightsStorage) :
  (float_weights_ st = None -> exists msg, RandInit gen st = Aborts msg) /\
  (forall w,
     float_weights_ st = Some w ->
     Forall (fun t => enumerated kLoadNoToc (Name t) = true -> allocated t = true)
            (tensors w) ->
     let init := mkWeightInitializer (normal_distribution_new float_0 float_1) gen in
     let n := visited_elements kLoadNoToc (tensors w) in
     exists w',
       RandInit gen st =
         Returns (set_float_weights st (Some w'), gen_ (snd (draws n init))) /\
       weights_config w' = weights_config w /\
       Forall2 (randomized kLoadNoToc) (tensors w) (tensors w') /\
       visited_data kLoadNoToc (tensors w') = fst (draws n init)).
Proof.
  split.
  - intros Hnone. unfold RandInit. rewrite Hnone. eauto.
  - intros w Hw Hall. cbv zeta. unfold RandInit, ForEachTensor. rewrite Hw.
    destruct (ForEachTensor_list_draws (tensors w) (WeightInitializer_new gen) Hall)
      as (ts' & Hrun & Hrel & Hdata).
    rewrite Hrun. cbn.
    exists (mkModelWeightsPtrs (weights_config w) ts').
    repeat split; assumption.
Qed.

End RandInitProperties.

Lemma RandInit_draws_witness :
  (exists msg,
     RandInit (ext := example_externals) (5 : @mt19937 example_externals)
       (ModelWeightsStorage_new example_config) = Aborts msg) /\
  (exists st',
     RandInit (ext := example_externals) (5 : @mt19937 example_externals)
       (mkModelWeightsStorage example_config
          (Some (mkModelWeightsPtrs example_config
                   (example_allocate <$> example_tensors)))
          None None None []) = Returns (st', 10) /\
     (tensors <$> float_weights_ st') =
       Some [mkMatPtr "a" 2 (Some [5; 6]%Z) float_1;
             mkMatPtr "b" 3 (Some [7; 8; 9]%Z) float_1]).
Proof.
  split.
  - apply (proj1 (RandInit_draws (ext := example_externals) 5
                    (ModelWeightsStorage_new example_config))).
    reflexivity.
  - destruct (proj2 (RandInit_draws (ext := example_externals) 5
                (mkModelWeightsStorage example_config
                   (Some (mkModelWeightsPtrs example_config
                            (example_allocate <$> example_tensors)))
                   None None None []))
              (mkModelWeightsPtrs example_config
                 (example_allocate <$> example_tensors))
              eq_refl) as (w' & Hrun & _ & _ & _).
    + repeat constructor.
    + eexists. split; [vm_compute; reflexivity | reflexivity].
Defined.

(** ** [Reshape] *)

Section ReshapeProperties.
Context `{ext : Externals}.

(** The blocks the loops address lie inside the buffers. *)
Lemma dst_block_bound (M H Q m h : nat) :
  m < M -> h < H -> m * H * Q + h * Q + Q <= M * H * Q.
Proof.
  intros Hm Hh.
  replace (m * H * Q + h * Q + Q) with ((m * H + h + 1) * Q) by lia.
  apply Nat.mul_le_mono_r. nia.
Qed.

Lemma src_block_bound (M H Q m h : nat) :
  m < M -> h < H -> h * M * Q + m * Q + Q <= M * H * Q.
Proof.
  intros Hm Hh.
  replace (h * M * Q + m * Q + Q) with ((h * M + m + 1) * Q) by lia.
  apply Nat.mul_le_mono_r. nia.
Qed.

(** A block written earlier lies before the block being written. *)
Lemma dst_block_before (H Q m h m' h' i : nat) :
  m' < m \/ (m' = m /\ h' < h) -> h' < H -> i < Q ->
  m' * (H * Q) + (h' * Q + i) < m * H * Q + h * Q.
Proof.
  intros Hdone Hh Hi.
  rewrite <- (Nat.mul_assoc m H Q).
  assert (Hblk : h' * Q + i < (h' + 1) * Q) by lia.
  destruct Hdone as [Hlt | [-> Hlt]].
  - assert ((h' + 1) * Q <= H * Q) by (apply Nat.mul_le_mono_r; lia).
    assert ((m' + 1) * (H * Q) <= m * (H * Q)) by (apply Nat.mul_le_mono_r; lia).
    lia.
  - assert ((h' + 1) * Q <= h * Q) by (apply Nat.mul_le_mono_r; lia).
    lia.
Qed.

Lemma CopyBytes_length (from to : list float) (from_ofs to_ofs count : nat) :
  length (CopyBytes from from_ofs to to_ofs count) = length to.
Proof. apply length_inserts. Qed.

Lemma CopyBytes_lookup_copied (from to : list float) (from_ofs to_ofs count i : nat) :
  from_ofs + count <= length from -> to_ofs + count <= length to -> i < count ->
  CopyBytes from from_ofs to to_ofs count !! (to_ofs + i) = from !! (from_ofs + i).
Proof.
  intros Hfrom Hto Hi. unfold CopyBytes.
  assert (Hlen : length (take count (drop from_ofs from)) = count).
  { rewrite length_take, length_drop. lia. }
  rewrite list_lookup_inserts by lia.
  replace (to_ofs + i - to_ofs) with i by lia.
  rewrite lookup_take_lt by lia. apply lookup_drop.
Qed.

Lemma CopyBytes_lookup_before (from to : list float) (from_ofs to_ofs count j : nat) :
  j < to_ofs -> CopyBytes from from_ofs to to_ofs count !! j = to !! j.
Proof. intros Hj. unfold CopyBytes. apply list_lookup_inserts_lt. exact Hj. Qed.

Lemma foldl_seq_S {A : Type} (f : A -> nat -> A) (a : A) (k : nat) :
  foldl f a (seq 0 (S k)) = f (foldl f a (seq 0 k)) k.
Proof. rewrite seq_S, foldl_app. reflexivity. Qed.

(** The inner loop, after [k] heads of row [m], rows below [m] being
    done. *)
Lemma Reshape_row_heads (c : LayerConfig.t) (tmp out : list float) (m k : nat) :
  let M := LayerConfig.model_dim c in
  let H := LayerConfig.heads c in
  let Q := LayerConfig.qkv_dim c in
  m < M -> k <= H ->
  length tmp = M * H * Q -> length out = M * H * Q ->
  (forall m' h i, m' < m -> h < H -> i < Q ->
     out !! dst_index c m' h i = tmp !! src_index c h m' i) ->
  let out' :=
    foldl (fun out h => CopyBytes tmp (h * M * Q + m * Q) out (m * H * Q + h * Q) Q)
          out (seq 0 k) in
  length out' = M * H * Q /\
  (forall m' h i, m' < m \/ (m' = m /\ h < k) -> h < H -> i < Q ->
     out' !! dst_index c m' h i = tmp !! src_index c h m' i).
Proof.
  intros M H Q Hm Hk Htmp Hout Hdone. induction k as [| k IH].
  - cbn. split; [exact Hout |].
    intros m' h i [Hlt | [_ Hlt]] Hh Hi; [auto | lia].
  - cbv zeta in *. rewrite foldl_seq_S.
    destruct (IH ltac:(lia)) as [Hlen Hinv]. clear IH.
    split; [rewrite CopyBytes_length; exact Hlen |].
    intros m' h i Hcase Hh Hi.
    destruct (decide (m' = m /\ h = k)) as [[-> ->] | Hne].
    + unfold dst_index, src_index. fold M H Q.
      replace (m * (H * Q) + (k * Q + i)) with (m * H * Q + k * Q + i) by lia.
      apply CopyBytes_lookup_copied; [| | exact Hi].
      * rewrite Htmp. apply src_block_bound; lia.
      * rewrite Hlen. apply dst_block_bound; lia.
    + rewrite CopyBytes_lookup_before.
      * apply Hinv; [| exact Hh | exact Hi]. lia.
      * unfold dst_index. fold H Q.
        apply dst_block_before; [lia | exact Hh | exact Hi].
Qed.

Lemma Reshape_row_done (c : LayerConfig.t) (tmp out : list float) (m : nat) :
  let M := LayerConfig.model_dim c in
  let H := LayerConfig.heads c in
  let Q := LayerConfig.qkv_dim c in
  m < M -> length tmp = M * H * Q -> length out = M * H * Q ->
  (forall m' h i, m' < m -> h < H -> i < Q ->
     out !! dst_index c m' h i = tmp !! src_index c h m' i) ->
  length (Reshape_row c tmp out m) = M * H * Q /\
  (forall m' h i, m' < S m -> h < H -> i < Q ->
     Reshape_row c tmp out m !! dst_index c m' h i = tmp !! src_index c h m' i).
Proof.
  intros M H Q Hm Htmp Hout Hdone.
  destruct (Reshape_row_heads c tmp out m H Hm (le_n _) Htmp Hout Hdone)
    as [Hlen Hinv].
  split; [exact Hlen |].
  intros m' h i Hm' Hh Hi. apply Hinv; [| exact Hh | exact Hi]. lia.
Qed.

(** The outer loop, after [k] rows. *)
Lemma Reshape_rows_done (c : LayerConfig.t) (tmp out : list float) (k : nat) :
  let M := LayerConfig.model_dim c in
  let H := LayerConfig.heads c in
  let Q := LayerConfig.qkv_dim c in
  k <= M -> length tmp = M * H * Q -> length out = M * H * Q ->
  let out' := foldl (Reshape_row c tmp) out (seq 0 k) in
  length out' = M * H * Q /\
  (forall m h i, m < k -> h < H -> i < Q ->
     out' !! dst_index c m h i = tmp !! src_index c h m i).
Proof.
  intros M H Q Hk Htmp Hout. induction k as [| k IH].
  - cbn. split; [exact Hout |]. intros m h i Hm. lia.
  - cbv zeta in *. rewrite foldl_seq_S.
    destruct (IH ltac:(lia)) as [Hlen Hinv]. clear IH.
    apply Reshape_row_done; [lia | exact Htmp | exact Hlen | exact Hinv].
Qed.

Lemma AllocateAligned_length (site n : nat) : length (AllocateAligned site n) = n.
Proof. unfold AllocateAligned. rewrite length_fmap. apply length_seq. Qed.

(** After [DecompressAndZeroPad] from offset 0 the temporary holds the
    decoded stream. *)
Lemma DecompressAndZeroPad_lookup (packed : list Z) (raw : list float) (num j : nat) :
  length raw = num -> j < num ->
  length (DecompressAndZeroPad packed 0 raw num) = num /\
  DecompressAndZeroPad packed 0 raw num !! j = Some (nuq_decode packed j).
Proof.
  intros Hraw Hj. unfold DecompressAndZeroPad. split.
  - rewrite length_inserts. exact Hraw.
  - rewrite list_lookup_inserts by (rewrite ?length_fmap, ?length_seq; lia).
    rewrite list_lookup_fmap, Nat.sub_0_r, lookup_seq_lt by lia.
    reflexivity.
Qed.

Lemma DecompressAndZeroPad_length (packed : list Z) (raw : list float) (num : nat) :
  length (DecompressAndZeroPad packed 0 raw num) = length raw.
Proof. unfold DecompressAndZeroPad. apply length_inserts. Qed.

(** C3. [Reshape] of the NUQ variant is a no-op when the data pointer of
    [attn_vec_einsum_w] is unset.  Otherwise (the destination being given
    by [storage] or already set) it decodes the source stream, assembles
    the [[model_dim, heads * qkv_dim]] layout, in which the element [i] of
    head [h] in row [m] is the decoded element [(h, m, i)] of the
    [[heads, model_dim, qkv_dim]] layout, encodes the assembled values
    into [att_weights], and gives [att_weights] the scale of
    [attn_vec_einsum_w]. *)
Theorem Reshape_layout (storage : option MatStorage) (lw : LayerWeightsPtrs) :
  (data (attn_vec_einsum_w lw) = None -> Reshape storage lw = Returns (lw, storage)) /\
  (forall packed,
     data (attn_vec_einsum_w lw) = Some packed ->
     is_Some storage \/ is_Some (data (att_weights lw)) ->
     let c := layer_config lw in
     let num := LayerConfig.model_dim c * LayerConfig.heads c * LayerConfig.qkv_dim c in
     exists lw' storage' assembled dest,
       Reshape storage lw = Returns (lw', storage') /\
       length assembled = num /\
       (forall m h i,
          m < LayerConfig.model_dim c -> h < LayerConfig.heads c ->
          i < LayerConfig.qkv_dim c ->
          assembled !! dst_index c m h i = Some (nuq_decode packed (src_index c h m i))) /\
       data (att_weights lw') = Some (nuq_encode assembled dest) /\
       scale (att_weights lw') = scale (attn_vec_einsum_w lw) /\
       attn_vec_einsum_w lw' = attn_vec_einsum_w lw /\
       layer_config lw' = layer_config lw).
Proof.
  split.
  - intros Hnone. unfold Reshape. rewrite Hnone. reflexivity.
  - intros packed Hsrc Hdest c num.
    set (M := LayerConfig.model_dim c) in *.
    set (H := LayerConfig.heads c) in *.
    set (Q := LayerConfig.qkv_dim c) in *.
    set (tmp := DecompressAndZeroPad packed 0 (AllocateAligned 1 num) num).
    set (assembled := Reshape_rows c tmp (AllocateAligned 2 num)).
    assert (Htmp : length tmp = num).
    { unfold tmp. rewrite DecompressAndZeroPad_length. apply AllocateAligned_length. }
    destruct (Reshape_rows_done c tmp (AllocateAligned 2 num) M (le_n _) Htmp
                (AllocateAligned_length 2 num)) as [Hlen Hlayout].
    change (length assembled = num) in Hlen.
    assert (Helems : forall m h i, m < M -> h < H -> i < Q ->
              assembled !! dst_index c m h i = Some (nuq_decode packed (src_index c h m i))).
    { intros m h i Hm Hh Hi. pose proof (Hlayout m h i Hm Hh Hi) as Hl.
      change (assembled !! dst_index c m h i = tmp !! src_index c h m i) in Hl.
      rewrite Hl.
      apply DecompressAndZeroPad_lookup; [apply AllocateAligned_length |].
      unfold src_index. fold M Q.
      pose proof (src_block_bound M H Q m h Hm Hh). unfold num. lia. }
    assert (Htake : take num assembled = assembled) by (apply take_ge; lia).
    unfold Reshape. rewrite Hsrc. fold c. fold M H Q. fold num. fold tmp. fold assembled.
    destruct storage as [s |]; cbn.
    + unfold Compress. rewrite Htake.
      eexists _, _, assembled, _. split; [reflexivity |]. cbn.
      repeat split; assumption.
    + destruct Hdest as [[? Hs] | [dest Hd]]; [discriminate |].
      rewrite Hd. unfold Compress. rewrite Htake.
      eexists _, _, assembled, dest. split; [reflexivity |]. cbn.
      repeat split; assumption.
Qed.

End ReshapeProperties.

Lemma Reshape_layout_witness :
  (Reshape (ext := example_externals) None
     (mkLayerWeightsPtrs (mkMatPtr "attn_vec_einsum_w" 12 None 7%Z)
        (mkMatPtr "att_weights" 12 None float_1) (LayerConfig.mk 3 2 2))
   = Returns (mkLayerWeightsPtrs (mkMatPtr "attn_vec_einsum_w" 12 None 7%Z)
                (mkMatPtr "att_weights" 12 None float_1) (LayerConfig.mk 3 2 2),
              None)) /\
  (exists lw' storage',
     Reshape (ext := example_externals) (Some (mkMatStorage 12 None)) example_layer
     = Returns (lw', storage') /\
     data (att_weights lw') = Some [0; 1; 6; 7; 2; 3; 8; 9; 4; 5; 10; 11]%Z /\
     scale (att_weights lw') = 7%Z).
Proof.
  split.
  - apply (proj1 (Reshape_layout (ext := example_externals) None
                    (mkLayerWeightsPtrs (mkMatPtr "attn_vec_einsum_w" 12 None 7%Z)
                       (mkMatPtr "att_weights" 12 None float_1)
                       (LayerConfig.mk 3 2 2)))).
    reflexivity.
  - destruct (proj2 (Reshape_layout (ext := example_externals)
                       (Some (mkMatStorage 12 None)) example_layer)
                (Z.of_nat <$> seq 0 12) eq_refl)
      as (lw' & storage' & assembled & dest & Hrun & _).
    + left. eauto.
    + exists lw', storage'. split; [exact Hrun |].
      vm_compute in Hrun. inversion Hrun; subst. split; reflexivity.
Defined.

(** * Further properties of the allocator *)

Local Open Scope Z_scope.

(** ** [RoundUpToOddLines] *)

Lemma lor_1_odd (x : Z) :
  0 <= x -> Z.odd (Z.lor x 1) = true /\ x <= Z.lor x 1 <= x + 1.
Proof.
  intros Hx.
  assert (Heven : forall y, Z.land y 1 = 0 -> Z.lor y 1 = y + 1).
  { intros y Hy. symmetry. apply Z.add_nocarry_lor. exact Hy. }
  assert (Hland : forall y, Z.land y 1 = y mod 2).
  { intros y. change 1 with (Z.ones 1) at 1. rewrite Z.land_ones by lia.
    reflexivity. }
  assert (Hodd : forall y, y mod 2 = 1 -> Z.odd y = true).
  { intros y Hy. rewrite Zodd_mod, Hy. reflexivity. }
  pose proof (Z.mod_pos_bound x 2 ltac:(lia)) as Hb.
  pose proof (Z.div_mod x 2 ltac:(lia)) as Hdm.
  destruct (Z.eq_dec (x mod 2) 0) as [H0 | H1].
  - rewrite (Heven x) by (rewrite Hland; exact H0).
    split; [| lia]. apply Hodd.
    replace (x + 1) with (1 + (x / 2) * 2) by lia.
    rewrite Z.mod_add by lia. reflexivity.
  - assert (Hx1 : Z.land (x - 1) 1 = 0).
    { rewrite Hland. replace (x - 1) with (0 + (x / 2) * 2) by lia.
      rewrite Z.mod_add by lia. reflexivity. }
    assert (Hlor : Z.lor x 1 = x).
    { assert (Hx' : Z.lor (x - 1) 1 = x) by (rewrite (Heven _ Hx1); lia).
      rewrite <- Hx' at 1. rewrite <- Z.lor_assoc. exact Hx'. }
    rewrite Hlor. split; [| lia]. apply Hodd. lia.
Qed.

Lemma DivCeil_value (a b : Z) :
  0 <= a -> 1 <= b -> a + b <= SizeT.max ->
  Hwy.DivCeil a b = (a + b - 1) / b /\
  Hwy.RoundUpTo a b = ceil_to a b.
Proof.
  intros Ha Hb Hfit.
  destruct (ceil_to_spec a b ltac:(lia)) as [_ Hceil].
  unfold Hwy.RoundUpTo, Hwy.DivCeil, SizeT.div, SizeT.add, SizeT.sub, SizeT.mul.
  rewrite (wrap_small (a + b)) by lia.
  rewrite (wrap_small (a + b - 1)) by lia.
  split; [reflexivity |].
  change ((a + b - 1) / b * b) with (ceil_to a b).
  apply wrap_small. lia.
Qed.

(** X1. [RoundUpToOddLines<T>(num, line_bytes)], for a line of at least 32
    bytes that is a multiple of [sizeof(T)], returns in both builds a
    number of elements that is at least [num], spans an odd number of
    lines, and exceeds [num] by less than two lines. *)
Theorem RoundUpToOddLines_odd (debug : bool) (kSize num line_bytes : Z) :
  32 <= line_bytes -> 1 <= kSize -> (kSize | line_bytes) -> 0 <= num ->
  num * kSize + 2 * line_bytes <= SizeT.max ->
  exists padded_num lines,
    RoundUpToOddLines debug kSize num line_bytes = Some padded_num /\
    num <= padded_num /\
    Z.odd lines = true /\
    padded_num * kSize = lines * line_bytes /\
    padded_num * kSize < num * kSize + 2 * line_bytes.
Proof.
  intros HL Hk [c Hc] Hn Hfit.
  assert (Hmod : line_bytes mod kSize = 0) by (subst; apply Z.mod_mul; lia).
  assert (Hnk : 0 <= num * kSize) by nia.
  destruct (DivCeil_value (num * kSize) line_bytes Hnk ltac:(lia) ltac:(lia))
    as [Hdiv _].
  destruct (ceil_to_spec (num * kSize) line_bytes ltac:(lia)) as [_ Hceil].
  unfold ceil_to in Hceil.
  set (lines := (num * kSize + line_bytes - 1) / line_bytes) in *.
  assert (Hl0 : 0 <= lines) by (apply Z.div_pos; lia).
  destruct (lor_1_odd lines Hl0) as [Hodd Hbnd].
  set (k := Z.lor lines 1) in *.
  assert (Hkl : 0 <= k * line_bytes < num * kSize + 2 * line_bytes) by nia.
  assert (Hquot : k * line_bytes / kSize = k * c).
  { rewrite Hc, Z.mul_assoc. apply Z.div_mul. lia. }
  assert (Hge : num <= k * c) by nia.
  exists (k * c), k.
  unfold RoundUpToOddLines, dassert_fails.
  assert (H32 : (32 <=? line_bytes) = true) by (apply Z.leb_le; lia).
  rewrite H32, Hmod, andb_false_r. cbn [negb andb Z.eqb].
  rewrite andb_false_r.
  unfold SizeT.mul, SizeT.div. rewrite !(wrap_small (num * kSize)) by lia.
  rewrite !Hdiv. fold k.
  rewrite !(wrap_small (k * line_bytes)) by lia.
  rewrite !Hquot.
  assert (Hle : (num <=? k * c) = true) by (apply Z.leb_le; lia).
  rewrite Hle, andb_false_r.
  assert (Hbytes : k * c * kSize = k * line_bytes) by (rewrite Hc; ring).
  split; [reflexivity |]. split; [exact Hge |]. split; [exact Hodd |].
  split; [exact Hbytes | rewrite Hbytes; lia].
Qed.

Lemma RoundUpToOddLines_odd_witness :
  exists padded_num lines,
    RoundUpToOddLines true 4 100 64 = Some padded_num /\
    100 <= padded_num /\
    Z.odd lines = true /\
    padded_num * 4 = lines * 64 /\
    padded_num * 4 < 100 * 4 + 2 * 64.
Proof.
  apply (RoundUpToOddLines_odd true 4 100 64).
  - lia.
  - lia.
  - exists 16. reflexivity.
  - lia.
  - vm_compute. discriminate.
Defined.

(** ** [StrideForCyclicOffsets] *)

Lemma ceil_to_mono (a b m : Z) : 0 < m -> a <= b -> ceil_to a m <= ceil_to b m.
Proof.
  intros Hm Hab. unfold ceil_to.
  apply Z.mul_le_mono_nonneg_r; [lia |].
  apply Z.div_le_mono; lia.
Qed.

(** X2. [StrideForCyclicOffsets] grows with [cols], is a whole number of
    quanta of elements, and, when [sizeof(T)] divides [MaxQuantumBytes],
    is in bytes a multiple of [MaxQuantumBytes]. *)
Theorem StrideForCyclicOffsets_quanta (kSize cols1 cols2 : Z) :
  elem_size_ok kSize = true -> 0 <= cols1 -> cols1 <= cols2 ->
  cols2 + 2 * (MaxQuantumBytes / kSize) <= SizeT.max ->
  StrideForCyclicOffsets kSize cols1 <= StrideForCyclicOffsets kSize cols2 /\
  (MaxQuantumBytes / kSize | StrideForCyclicOffsets kSize cols2) /\
  ((kSize | MaxQuantumBytes) ->
   (MaxQuantumBytes | StrideForCyclicOffsets kSize cols2 * kSize)).
Proof.
  intros Hk Hc1 Hc12 Hfit.
  destruct (StrideForCyclicOffsets_value kSize cols1 Hk Hc1 ltac:(lia)) as [Hq Hv1].
  destruct (StrideForCyclicOffsets_value kSize cols2 Hk ltac:(lia) Hfit) as [_ Hv2].
  rewrite Hv1, Hv2.
  pose proof (ceil_to_mono cols1 cols2 (MaxQuantumBytes / kSize) ltac:(lia) Hc12).
  destruct (ceil_to_spec cols2 (MaxQuantumBytes / kSize) ltac:(lia)) as [Hdiv _].
  assert (Hmult : (MaxQuantumBytes / kSize
                   | ceil_to cols2 (MaxQuantumBytes / kSize) + MaxQuantumBytes / kSize)).
  { apply Z.divide_add_r; [exact Hdiv | apply Z.divide_refl]. }
  split; [lia |]. split; [exact Hmult |].
  intros [c Hc]. destruct Hmult as [n Hn]. rewrite Hn.
  assert (Hqc : MaxQuantumBytes / kSize = c).
  { rewrite Hc. apply Z.div_mul.
    unfold elem_size_ok in Hk. apply andb_true_iff in Hk.
    destruct Hk as [Hk _]. apply Z.leb_le in Hk. lia. }
  exists n. rewrite Hqc, Hc. lia.
Qed.

Lemma StrideForCyclicOffsets_quanta_witness :
  StrideForCyclicOffsets 4 10 <= StrideForCyclicOffsets 4 3000 /\
  (MaxQuantumBytes / 4 | StrideForCyclicOffsets 4 3000) /\
  ((4 | MaxQuantumBytes) -> (MaxQuantumBytes | StrideForCyclicOffsets 4 3000 * 4)).
Proof.
  apply (StrideForCyclicOffsets_quanta 4 10 3000).
  - reflexivity.
  - lia.
  - lia.
  - vm_compute. discriminate.
Defined.

(** ** Rows without and with the cyclic pad *)

(** X3. With one step per quantum ([QuantumBytes = StepBytes], no memory
    binding) the mask is [0] whatever the stride, in a debug and in a
    release build alike, and rows are exactly [stride] elements apart. *)
Theorem Row_one_step_per_quantum (g : Geometry) (kSize : Z) (debug : bool)
    (row0 cols stride r : Z) (rp : RowPtr) :
  geometry_ok g = true -> QuantumSteps g = 1 ->
  RowPtr_ctor kSize debug g row0 cols stride = Some rp ->
  0 <= stride * r <= SizeT.max ->
  row_mask_ rp = 0 /\ Row debug g rp r = Some (row0 + stride * r).
Proof.
  intros Hg Hone Hctor Hmul.
  destruct (RowPtr_ctor_fields g kSize debug row0 cols stride rp Hg Hctor)
    as (Hrow0 & Hstride & _ & _ & Hmask).
  assert (Hm0 : row_mask_ rp = 0).
  { rewrite Hmask, Hone. destruct (debug && _); reflexivity. }
  split; [exact Hm0 |].
  pose proof (QuantumBytes_pos g Hg) as Hq.
  rewrite (Row_value g debug rp r).
  - rewrite (pad_bytes_disabled rp r Hm0), Hrow0, Hstride. f_equal. lia.
  - rewrite (pad_bytes_disabled rp r Hm0). lia.
  - rewrite Hstride. exact Hmul.
Qed.

Lemma Row_one_step_per_quantum_witness :
  row_mask_ (mkRowPtr 1000 8 64 8 0) = 0 /\
  Row false (mkGeometry 64 64 1 false) (mkRowPtr 1000 8 64 8 0) 5
  = Some (1000 + 8 * 5).
Proof.
  apply (Row_one_step_per_quantum (mkGeometry 64 64 1 false) 4 false 1000 8 8 5).
  - reflexivity.
  - reflexivity.
  - reflexivity.
  - vm_compute. split; discriminate.
Defined.

(** X4. [SetStride(stride)] with [stride >= Cols()] disables the pad: in
    both builds every row of the result is at [row0 + stride * r], and the
    columns are kept. *)
Theorem SetStride_uniform_rows (g : Geometry) (debug : bool)
    (rp : RowPtr) (stride r : Z) :
  geometry_ok g = true -> Cols rp <= stride ->
  0 <= stride * r <= SizeT.max ->
  exists rp',
    SetStride debug rp stride = Some rp' /\
    Cols rp' = Cols rp /\ Stride rp' = stride /\
    Row debug g rp' r = Some (row0_ rp + stride * r).
Proof.
  intros Hg Hcs Hmul. unfold SetStride, dassert_fails.
  assert (Hc : (Cols rp <=? stride) = true) by (apply Z.leb_le; lia).
  rewrite Hc, andb_false_r. eexists. split; [reflexivity |].
  split; [reflexivity |]. split; [reflexivity |].
  pose proof (QuantumBytes_pos g Hg) as Hq.
  rewrite Row_value; cbn [row0_ stride_].
  - rewrite pad_bytes_disabled by reflexivity. f_equal. lia.
  - rewrite pad_bytes_disabled by reflexivity. lia.
  - exact Hmul.
Qed.

Lemma SetStride_uniform_rows_witness :
  exists rp',
    SetStride true (mkRowPtr 1000 2048 64 10 63) 16 = Some rp' /\
    Cols rp' = Cols (mkRowPtr 1000 2048 64 10 63) /\ Stride rp' = 16 /\
    Row true geometry_4k rp' 3 = Some (row0_ (mkRowPtr 1000 2048 64 10 63) + 16 * 3).
Proof.
  apply (SetStride_uniform_rows geometry_4k true (mkRowPtr 1000 2048 64 10 63) 16 3).
  - reflexivity.
  - cbn. lia.
  - vm_compute. split; discriminate.
Defined.

(** In a debug build [SetStride] below [Cols()] aborts. *)
Lemma SetStride_debug_aborts (rp : RowPtr) (stride : Z) :
  stride < Cols rp -> SetStride true rp stride = None.
Proof.
  intros Hlt. unfold SetStride, dassert_fails.
  assert (Hc : (Cols rp <=? stride) = false) by (apply Z.leb_gt; lia).
  rewrite Hc. reflexivity.
Qed.

Lemma mod_succ_cases (r n : Z) :
  0 <= r -> 0 < n ->
  ((r + 1) mod n = r mod n + 1 /\ r mod n + 1 < n) \/
  ((r + 1) mod n = 0 /\ r mod n = n - 1).
Proof.
  intros Hr Hn.
  pose proof (Z.mod_pos_bound r n Hn) as Hb.
  rewrite <- (Z.add_mod_idemp_l r 1 n) by lia.
  destruct (Z.eq_dec (r mod n + 1) n) as [Heq | Hne].
  - right. rewrite Heq, Z.mod_same by lia. lia.
  - left. rewrite Z.mod_small by lia. lia.
Qed.

(** X5. With the cyclic pad (a stride not below [StrideForCyclicOffsets])
    consecutive rows are [stride - StepBytes] elements apart inside a cycle
    of [QuantumSteps] rows, and [stride + (QuantumSteps - 1) * StepBytes]
    apart where a cycle ends. *)
Theorem Row_spacing (g : Geometry) (kSize : Z) (debug : bool)
    (row0 cols stride : Z) (rp : RowPtr) (r : Z) :
  geometry_ok g = true ->
  RowPtr_ctor kSize debug g row0 cols stride = Some rp ->
  StrideForCyclicOffsets kSize cols <= stride ->
  0 <= stride -> 0 <= r -> stride * (r + 1) <= SizeT.max ->
  exists a b,
    Row debug g rp r = Some a /\ Row debug g rp (r + 1) = Some b /\
    b - a =
      (if (r + 1) mod QuantumSteps g =? 0
       then stride + (QuantumSteps g - 1) * StepBytes g
       else stride - StepBytes g).
Proof.
  intros Hg Hctor Hsfco Hs Hr Hmul.
  destruct (RowPtr_ctor_fields g kSize debug row0 cols stride rp Hg Hctor)
    as (Hrow0 & Hstride & Hstep & _ & Hmask).
  assert (Hlt : (stride <? StrideForCyclicOffsets kSize cols) = false)
    by (apply Z.ltb_ge; lia).
  rewrite Hlt, andb_false_r in Hmask.
  destruct (geometry_ok_facts g Hg) as (Hsb & Hq & _ & _ & H1 & Hle).
  destruct (pad_bytes_cyclic g rp r Hg Hstep Hmask Hr) as [Hpad Hpadlt].
  destruct (pad_bytes_cyclic g rp (r + 1) Hg Hstep Hmask ltac:(lia))
    as [Hpad' Hpadlt'].
  exists (row0_ rp + stride_ rp * r - pad_bytes rp r),
         (row0_ rp + stride_ rp * (r + 1) - pad_bytes rp (r + 1)).
  split; [apply Row_value; [lia | subst stride; nia] |].
  split; [apply Row_value; [lia | subst stride; nia] |].
  rewrite Hpad, Hpad', Hstride.
  destruct (mod_succ_cases r (QuantumSteps g) Hr ltac:(lia)) as [[Hm Hb] | [Hm Hb]];
    rewrite Hm.
  - assert (Hne : (r mod QuantumSteps g + 1 =? 0) = false).
    { apply Z.eqb_neq. pose proof (Z.mod_pos_bound r (QuantumSteps g) ltac:(lia)). lia. }
    rewrite Hne. lia.
  - rewrite Hb. cbn [Z.eqb]. lia.
Qed.

Lemma Row_spacing_witness :
  exists a b,
    Row false geometry_4k (mkRowPtr 1000 2048 64 10 63) 63 = Some a /\
    Row false geometry_4k (mkRowPtr 1000 2048 64 10 63) (63 + 1) = Some b /\
    b - a =
      (if (63 + 1) mod QuantumSteps geometry_4k =? 0
       then 2048 + (QuantumSteps geometry_4k - 1) * StepBytes geometry_4k
       else 2048 - StepBytes geometry_4k).
Proof.
  apply (Row_spacing geometry_4k 4 false 1000 10 2048 (mkRowPtr 1000 2048 64 10 63) 63).
  - reflexivity.
  - reflexivity.
  - vm_compute. discriminate.
  - lia.
  - lia.
  - vm_compute. discriminate.
Defined.

(** X6. Rows of a view and rows of its parent.  For a parent with the
    cyclic pad and a view [View(r, c, w)] that keeps it, row [r2] of the
    view is row [r + r2] of the parent, [c] columns in, as long as the
    pads of [r] and [r2] do not add up past a cycle ([r mod QuantumSteps +
    r2 mod QuantumSteps < QuantumSteps], so always when [r] is a multiple
    of [QuantumSteps]). *)
Theorem View_rows_of_parent (g : Geometry) (kSize : Z) (debug : bool)
    (row0 cols stride : Z) (rp v : RowPtr) (r c w r2 : Z) :
  geometry_ok g = true ->
  RowPtr_ctor kSize debug g row0 cols stride = Some rp ->
  StrideForCyclicOffsets kSize cols <= stride ->
  StrideForCyclicOffsets kSize w <= stride ->
  View kSize debug g rp r c w = Some v ->
  0 <= stride -> 0 <= r -> 0 <= r2 -> stride * (r + r2) <= SizeT.max ->
  r mod QuantumSteps g + r2 mod QuantumSteps g < QuantumSteps g ->
  exists a b,
    Row debug g v r2 = Some a /\ Row debug g rp (r + r2) = Some b /\ a = b + c.
Proof.
  intros Hg Hctor Hsfco Hsfcow HView Hs Hr Hr2 Hmul Hcycle.
  destruct (RowPtr_ctor_fields g kSize debug row0 cols stride rp Hg Hctor)
    as (Hrow0 & Hstride & Hstep & _ & Hmask).
  assert (Hlt : (stride <? StrideForCyclicOffsets kSize cols) = false)
    by (apply Z.ltb_ge; lia).
  rewrite Hlt, andb_false_r in Hmask.
  destruct (geometry_ok_facts g Hg) as (Hsb & Hq & _ & _ & H1 & Hle).
  unfold View in HView.
  destruct (dassert_fails debug (c <? cols_ rp)); [discriminate |].
  destruct (dassert_fails debug (w <=? SizeT.sub (cols_ rp) c)); [discriminate |].
  destruct (pad_bytes_cyclic g rp r Hg Hstep Hmask Hr) as [Hpad Hpadlt].
  rewrite (Row_value g debug rp r) in HView by (try lia; subst stride; nia).
  cbn in HView.
  destruct (RowPtr_ctor_fields g kSize debug _ _ _ v Hg HView)
    as (Hv0 & Hvs & Hvstep & _ & Hvmask).
  assert (Hltw : (stride_ rp <? StrideForCyclicOffsets kSize w) = false)
    by (apply Z.ltb_ge; lia).
  rewrite Hltw, andb_false_r in Hvmask.
  destruct (pad_bytes_cyclic g v r2 Hg Hvstep Hvmask Hr2) as [Hvpad Hvpadlt].
  destruct (pad_bytes_cyclic g rp (r + r2) Hg Hstep Hmask ltac:(lia))
    as [Hpad' Hpadlt'].
  assert (Hsum : (r + r2) mod QuantumSteps g
                 = r mod QuantumSteps g + r2 mod QuantumSteps g).
  { rewrite Z.add_mod by lia. apply Z.mod_small.
    pose proof (Z.mod_pos_bound r (QuantumSteps g) ltac:(lia)).
    pose proof (Z.mod_pos_bound r2 (QuantumSteps g) ltac:(lia)). lia. }
  exists (row0_ v + stride_ v * r2 - pad_bytes v r2),
         (row0_ rp + stride_ rp * (r + r2) - pad_bytes rp (r + r2)).
  split; [apply Row_value; [lia | rewrite Hvs; subst stride; nia] |].
  split; [apply Row_value; [lia | subst stride; nia] |].
  rewrite Hv0, Hvs, Hvpad, Hpad', Hpad, Hsum. lia.
Qed.

Lemma View_rows_of_parent_witness :
  exists a b,
    Row false geometry_4k (mkRowPtr (1000 + 2048 * 64 + 2) 2048 64 5 63) 3 = Some a /\
    Row false geometry_4k (mkRowPtr 1000 2048 64 10 63) (64 + 3) = Some b /\
    a = b + 2.
Proof.
  apply (View_rows_of_parent geometry_4k 4 false 1000 10 2048
           (mkRowPtr 1000 2048 64 10 63)
           (mkRowPtr (1000 + 2048 * 64 + 2) 2048 64 5 63) 64 2 5 3).
  - reflexivity.
  - reflexivity.
  - vm_compute. discriminate.
  - vm_compute. discriminate.
  - reflexivity.
  - lia.
  - lia.
  - lia.
  - vm_compute. discriminate.
  - vm_compute. reflexivity.
Defined.

(** Past a cycle the two differ by a whole quantum of steps: row 1 of the
    view at row 63 is not row 64 of the parent. *)
Example View_rows_past_cycle :
  (v ← View 4 false geometry_4k (mkRowPtr 1000 2048 64 10 63) 63 0 10;
   Row false geometry_4k v 1)
  = Some (1000 + 2048 * 64 - 64 * 64) /\
  Row false geometry_4k (mkRowPtr 1000 2048 64 10 63) 64 = Some (1000 + 2048 * 64).
Proof. split; reflexivity. Qed.

(** ** [RowVectorBatch] *)

Lemma Alloc_ptr_get (g : Geometry) (kSize num : Z) (h : Heap) :
  1 <= kSize -> 0 <= num ->
  (is_Some (ptr_get (fst (Alloc g kSize num h))) <-> num * kSize <= SizeT.max).
Proof.
  intros Hk Hn.
  destruct (Alloc_bytes_check kSize num Hk Hn) as [Hbytes Hcheck].
  cbv zeta in Hbytes, Hcheck.
  pose proof (overflow_check kSize num Hk Hn) as Hov.
  unfold Alloc. cbv zeta. rewrite Hcheck, Hbytes.
  destruct (Z.eqb_spec (SizeT.wrap (num * kSize) / kSize) num) as [Heq | Hne]; cbn.
  - split; [intros _; apply Hov; exact Heq | eauto].
  - split; [intros [? Hs]; discriminate | intros Hle; apply Hov in Hle; contradiction].
Qed.

Lemma RowVectorBatch_padded_value (g : Geometry) (kSize : Z)
    (extents : Extents2D.t) (s : Z) :
  1 <= kSize <= QuantumBytes g ->
  0 <= Extents2D.rows extents * s ->
  Extents2D.rows extents * s + QuantumBytes g / kSize <= SizeT.max ->
  1 <= QuantumBytes g / kSize /\
  RowVectorBatch.padded g kSize extents s
  = ceil_to (Extents2D.rows extents * s) (QuantumBytes g / kSize).
Proof.
  intros Hk Hrs Hfit.
  assert (Hq : 1 <= QuantumBytes g / kSize) by (apply Z.div_le_lower_bound; lia).
  split; [exact Hq |].
  unfold RowVectorBatch.padded, SizeT.mul at 1, SizeT.div at 1.
  rewrite wrap_small by lia.
  apply (DivCeil_value _ _ Hrs Hq Hfit).
Qed.

(** X7. The constructor of [RowVectorBatch]: a stride of 0 means tightly
    packed rows ([stride = cols]); a nonzero stride below [cols] aborts in
    every build, before anything is computed; an accepted stride is kept
    and the constructor returns, unless the alignment [QuantumBytes() /
    sizeof(T)] it rounds up to is 0, where it divides by zero.  Every
    batch it returns has [Stride() >= Cols()] and the extents it was
    given. *)
Theorem RowVectorBatch_ctor_stride (g : Geometry) (kSize : Z)
    (extents : Extents2D.t) (stride : Z) (h : Heap) :
  (stride <> 0 -> stride < Extents2D.cols extents ->
   exists msg, RowVectorBatch.ctor g kSize extents stride h = Aborts msg) /\
  (stride = 0 \/ Extents2D.cols extents <= stride ->
   (QuantumBytes g / kSize = 0 ->
    RowVectorBatch.ctor g kSize extents stride h = Undefined) /\
   (QuantumBytes g / kSize <> 0 ->
    exists b h', RowVectorBatch.ctor g kSize extents stride h = Returns (b, h'))) /\
  (forall b h',
     RowVectorBatch.ctor g kSize extents stride h = Returns (b, h') ->
     QuantumBytes g / kSize <> 0 /\
     RowVectorBatch.Extents b = extents /\
     RowVectorBatch.Stride b
       = (if stride =? 0 then Extents2D.cols extents else stride) /\
     RowVectorBatch.Cols b <= RowVectorBatch.Stride b).
Proof.
  unfold RowVectorBatch.ctor, SizeT.div.
  destruct (Z.eqb_spec stride 0) as [-> | Hne].
  - cbn. destruct (Z.eqb_spec (QuantumBytes g / kSize) 0) as [Hq | Hq].
    + split; [intros Hc; contradiction |].
      split; [intros _; split; [reflexivity | intros Hn; contradiction] |].
      intros b h' Hret. discriminate.
    + destruct (Alloc g kSize _ h) as [mem h1] eqn:HA.
      split; [intros Hc; contradiction |].
      split; [intros _; split; [intros H0; contradiction | eauto] |].
      intros b h' Hret. inversion Hret; subst. cbn.
      unfold RowVectorBatch.Cols. cbn. repeat split; [exact Hq | lia].
  - destruct (Z.leb_spec (Extents2D.cols extents) stride) as [Hle | Hgt]; cbn.
    + destruct (Z.eqb_spec (QuantumBytes g / kSize) 0) as [Hq | Hq].
      * split; [intros _ Hlt; lia |].
        split; [intros _; split; [reflexivity | intros Hn; contradiction] |].
        intros b h' Hret. discriminate.
      * destruct (Alloc g kSize _ h) as [mem h1] eqn:HA.
        split; [intros _ Hlt; lia |].
        split; [intros _; split; [intros H0; contradiction | eauto] |].
        intros b h' Hret. inversion Hret; subst. cbn.
        unfold RowVectorBatch.Cols. cbn. repeat split; [exact Hq | lia].
    + split; [intros _ _; eauto |].
      split; [intros [H0 | Hle]; [contradiction | lia] |].
      intros b h' Hret. discriminate.
Qed.

Lemma RowVectorBatch_ctor_stride_witness :
  (exists msg,
     RowVectorBatch.ctor geometry_4k 4 (Extents2D.mk 3 10) 8 (mkHeap ∅ 100)
     = Aborts msg) /\
  (exists b h',
     RowVectorBatch.ctor geometry_4k 4 (Extents2D.mk 3 10) 0 (mkHeap ∅ 100)
     = Returns (b, h')) /\
  RowVectorBatch.ctor (mkGeometry 64 64 1 false) 256 (Extents2D.mk 3 10) 0
    (mkHeap ∅ 100) = Undefined.
Proof.
  split; [| split].
  - apply (proj1 (RowVectorBatch_ctor_stride geometry_4k 4 (Extents2D.mk 3 10) 8
                    (mkHeap ∅ 100))); cbn; lia.
  - apply (proj1 (proj2 (RowVectorBatch_ctor_stride geometry_4k 4
                           (Extents2D.mk 3 10) 0 (mkHeap ∅ 100)))).
    + left. reflexivity.
    + vm_compute. discriminate.
  - apply (proj1 (proj2 (RowVectorBatch_ctor_stride (mkGeometry 64 64 1 false) 256
                           (Extents2D.mk 3 10) 0 (mkHeap ∅ 100)))).
    + left. reflexivity.
    + reflexivity.
Defined.

(** X8. The number of elements the constructor asks [Alloc] for covers
    all rows, exceeds [rows * stride] by less than a quantum of elements,
    is a whole number of quanta of elements, and, when [sizeof(T)] divides
    [QuantumBytes], is in bytes a multiple of [QuantumBytes], so that the
    entire matrix can be bound. *)
Theorem RowVectorBatch_padded_quantum (g : Geometry) (kSize : Z)
    (extents : Extents2D.t) (s : Z) :
  1 <= kSize <= QuantumBytes g ->
  0 <= Extents2D.rows extents * s ->
  Extents2D.rows extents * s + QuantumBytes g / kSize <= SizeT.max ->
  let n := RowVectorBatch.padded g kSize extents s in
  Extents2D.rows extents * s <= n < Extents2D.rows extents * s + QuantumBytes g / kSize /\
  (QuantumBytes g / kSize | n) /\
  ((kSize | QuantumBytes g) -> (QuantumBytes g | n * kSize)).
Proof.
  intros Hk Hrs Hfit. cbv zeta.
  destruct (RowVectorBatch_padded_value g kSize extents s Hk Hrs Hfit) as [Hq Hval].
  rewrite Hval.
  destruct (ceil_to_spec (Extents2D.rows extents * s) (QuantumBytes g / kSize)
              ltac:(lia)) as [Hdiv Hceil].
  split; [exact Hceil |]. split; [exact Hdiv |].
  intros [c Hc]. destruct Hdiv as [m Hm]. rewrite Hm.
  assert (Hqc : QuantumBytes g / kSize = c) by (rewrite Hc; apply Z.div_mul; lia).
  exists m. rewrite Hqc, Hc. lia.
Qed.

Lemma RowVectorBatch_padded_quantum_witness :
  let n := RowVectorBatch.padded geometry_4k 4 (Extents2D.mk 3 10) 10 in
  3 * 10 <= n < 3 * 10 + 4096 / 4 /\
  (4096 / 4 | n) /\
  ((4 | 4096) -> (4096 | n * 4)).
Proof.
  apply (RowVectorBatch_padded_quantum geometry_4k 4 (Extents2D.mk 3 10) 10).
  - cbn. lia.
  - cbn. lia.
  - vm_compute. discriminate.
Defined.

Lemma RowVectorBatch_ctor_returns (g : Geometry) (kSize : Z)
    (extents : Extents2D.t) (stride : Z) (h : Heap) :
  let s := if stride =? 0 then Extents2D.cols extents else stride in
  Extents2D.cols extents <= s -> 1 <= kSize ->
  QuantumBytes g / kSize <> 0 ->
  0 <= RowVectorBatch.padded g kSize extents s ->
  RowVectorBatch.padded g kSize extents s * kSize <= SizeT.max ->
  exists mem h' a,
    RowVectorBatch.ctor g kSize extents stride h
    = Returns (RowVectorBatch.mk mem extents s, h') /\
    ptr_get mem = Some a.
Proof.
  intros s Hcs Hk Hq Hp0 Hfit.
  destruct (proj2 (Alloc_ptr_get g kSize _ h Hk Hp0) Hfit) as [a Ha].
  apply Z.eqb_neq in Hq.
  unfold RowVectorBatch.ctor, SizeT.div. subst s.
  destruct (Z.eqb_spec stride 0) as [-> | Hne]; cbn.
  - rewrite Hq. destruct (Alloc g kSize _ h) as [mem h1]. cbn in Ha. eauto.
  - assert (Hle : (Extents2D.cols extents <=? stride) = true) by (apply Z.leb_le; lia).
    rewrite Hle. cbn. rewrite Hq.
    destruct (Alloc g kSize _ h) as [mem h1]. cbn in Ha. eauto.
Qed.

(** X9. A batch whose sizes do not overflow is allocated, and each of its
    rows lies inside the elements it asked for: [Batch(i)] is [i * stride]
    elements after [All()], row [i] ends at or before the start of row
    [i + 1], and the last row ends within the padded element count. *)
Theorem RowVectorBatch_rows_in_buffer (g : Geometry) (kSize : Z) (debug : bool)
    (extents : Extents2D.t) (stride : Z) (h : Heap) :
  let s := if stride =? 0 then Extents2D.cols extents else stride in
  1 <= kSize <= QuantumBytes g ->
  0 <= Extents2D.rows extents -> 0 <= Extents2D.cols extents ->
  Extents2D.cols extents <= s ->
  (Extents2D.rows extents * s + QuantumBytes g / kSize) * kSize <= SizeT.max ->
  exists b h' p,
    RowVectorBatch.ctor g kSize extents stride h = Returns (b, h') /\
    RowVectorBatch.All kSize b = Some p /\
    forall i, 0 <= i < Extents2D.rows extents ->
      RowVectorBatch.Batch debug kSize b i = Some (p + i * s) /\
      (p + i * s) + Extents2D.cols extents <= p + (i + 1) * s /\
      (i + 1) * s <= RowVectorBatch.padded g kSize extents s.
Proof.
  intros s Hk Hrows Hcols Hcs Hfit.
  assert (Hrs : 0 <= Extents2D.rows extents * s) by nia.
  assert (Hq : 1 <= QuantumBytes g / kSize) by (apply Z.div_le_lower_bound; lia).
  assert (Hfit1 : Extents2D.rows extents * s + QuantumBytes g / kSize <= SizeT.max) by nia.
  destruct (RowVectorBatch_padded_quantum g kSize extents s Hk Hrs Hfit1)
    as (Hpad & _ & _).
  destruct (RowVectorBatch_ctor_returns g kSize extents stride h Hcs
              ltac:(lia) ltac:(lia) ltac:(fold s; lia) ltac:(fold s; nia))
    as (mem & h' & a & Hctor & Ha).
  fold s in Hctor.
  exists (RowVectorBatch.mk mem extents s), h', (a / kSize).
  split; [exact Hctor |].
  split; [unfold RowVectorBatch.All; cbn; rewrite Ha; reflexivity |].
  intros i Hi.
  assert (His : 0 <= i * s <= Extents2D.rows extents * s) by nia.
  split.
  - unfold RowVectorBatch.Batch, RowVectorBatch.BatchSize, RowVectorBatch.All,
      dassert_fails. cbn.
    assert (Hlt : (i <? Extents2D.rows extents) = true) by (apply Z.ltb_lt; lia).
    rewrite Hlt, andb_false_r, Ha. cbn.
    unfold SizeT.mul. rewrite wrap_small by lia. reflexivity.
  - split; nia.
Qed.

Lemma RowVectorBatch_rows_in_buffer_witness :
  exists b h' p,
    RowVectorBatch.ctor geometry_4k 4 (Extents2D.mk 3 10) 16 (mkHeap ∅ 100)
    = Returns (b, h') /\
    RowVectorBatch.All 4 b = Some p /\
    forall i, 0 <= i < 3 ->
      RowVectorBatch.Batch true 4 b i = Some (p + i * 16) /\
      (p + i * 16) + 10 <= p + (i + 1) * 16 /\
      (i + 1) * 16 <= RowVectorBatch.padded geometry_4k 4 (Extents2D.mk 3 10) 16.
Proof.
  apply (RowVectorBatch_rows_in_buffer geometry_4k 4 true (Extents2D.mk 3 10) 16
           (mkHeap ∅ 100)).
  - cbn. lia.
  - cbn. lia.
  - cbn. lia.
  - cbn. lia.
  - vm_compute. discriminate.
Defined.

(** X10. [RowPtrFromBatch] of [AllocateAlignedRows]: for elements of which
    a step's worth fits in a quantum ([StepBytes <= MaxQuantumBytes /
    sizeof(T)]) the matrix is allocated, its row pointer keeps the cyclic
    pad in both builds, and every row [r < rows] starts at or after
    [All()], ends at or before the start of row [r + 1], and lies within
    the elements allocated. *)
Theorem AllocateAlignedRows_rows_disjoint (g : Geometry) (kSize : Z) (debug : bool)
    (extents : Extents2D.t) (h : Heap) :
  let rows := Extents2D.rows extents in
  let cols := Extents2D.cols extents in
  let s := StrideForCyclicOffsets kSize cols in
  geometry_ok g = true -> elem_size_ok kSize = true -> kSize <= QuantumBytes g ->
  StepBytes g <= MaxQuantumBytes / kSize ->
  0 <= rows -> 0 <= cols -> cols + 2 * (MaxQuantumBytes / kSize) <= SizeT.max ->
  (rows * s + QuantumBytes g / kSize) * kSize <= SizeT.max ->
  exists b h' p rp,
    AllocateAlignedRows g kSize extents h = Returns (b, h') /\
    RowVectorBatch.All kSize b = Some p /\
    RowPtrFromBatch kSize debug g b = Some rp /\
    row_mask_ rp = QuantumSteps g - 1 /\
    forall r, 0 <= r < rows ->
      exists a a',
        Row debug g rp r = Some a /\ Row debug g rp (r + 1) = Some a' /\
        p <= a /\ a + cols <= a' /\
        a + cols <= p + RowVectorBatch.padded g kSize extents s.
Proof.
  intros rows cols s Hg Hek HkQ Hstep Hrows Hcols Hfitc Hfit.
  destruct (StrideForCyclicOffsets_value kSize cols Hek Hcols Hfitc) as [Hq Hval].
  destruct (ceil_to_spec cols (MaxQuantumBytes / kSize) ltac:(lia)) as [_ Hceil].
  fold s in Hval.
  assert (Hk1 : 1 <= kSize).
  { unfold elem_size_ok in Hek. apply andb_true_iff in Hek.
    destruct Hek as [Hk _]. apply Z.leb_le in Hk. exact Hk. }
  assert (Hs : cols + StepBytes g <= s) by lia.
  destruct (geometry_ok_facts g Hg) as (Hsb & HQ & _ & _ & H1 & Hle).
  assert (Hsne : (s =? 0) = false) by (apply Z.eqb_neq; lia).
  assert (Hrs : 0 <= rows * s) by nia.
  assert (HqQ : 1 <= QuantumBytes g / kSize) by (apply Z.div_le_lower_bound; lia).
  assert (Hfit1 : rows * s + QuantumBytes g / kSize <= SizeT.max) by nia.
  destruct (RowVectorBatch_padded_quantum g kSize extents s ltac:(lia) Hrs Hfit1)
    as (Hpad & _ & _).
  pose proof (RowVectorBatch_ctor_returns g kSize extents s h) as Hret.
  cbv zeta in Hret. rewrite Hsne in Hret.
  destruct (Hret ltac:(fold cols; lia) Hk1 ltac:(lia) ltac:(lia) ltac:(nia))
    as (mem & h' & a0 & Hctor & Ha0).
  clear Hret.
  set (p := a0 / kSize).
  destruct (RowPtr_ctor_succeeds g kSize debug p cols s Hg ltac:(lia)) as [rp Hrp].
  destruct (RowPtr_ctor_fields g kSize debug p cols s rp Hg Hrp)
    as (Hrow0 & Hstride & Hst & _ & Hmask).
  unfold s in Hmask at 1. rewrite Z.ltb_irrefl, andb_false_r in Hmask.
  exists (RowVectorBatch.mk mem extents s), h', p, rp.
  split.
  { unfold AllocateAlignedRows, SizeT.div.
    assert (Hq0 : (MaxQuantumBytes / kSize =? 0) = false) by (apply Z.eqb_neq; lia).
    rewrite Hq0. exact Hctor. }
  split; [unfold RowVectorBatch.All; cbn; rewrite Ha0; reflexivity |].
  split.
  { unfold RowPtrFromBatch, RowVectorBatch.All, RowVectorBatch.Cols,
      RowVectorBatch.Stride. cbn. rewrite Ha0. cbn. exact Hrp. }
  split; [exact Hmask |].
  intros r Hr.
  destruct (pad_bytes_cyclic g rp r Hg Hst Hmask ltac:(lia)) as [Hpr Hprlt].
  destruct (pad_bytes_cyclic g rp (r + 1) Hg Hst Hmask ltac:(lia)) as [Hpr' Hprlt'].
  pose proof (Z.mod_pos_bound r (QuantumSteps g) ltac:(lia)) as Hmod.
  assert (Hmodle : r mod QuantumSteps g <= r) by (apply Z.mod_le; lia).
  exists (row0_ rp + stride_ rp * r - pad_bytes rp r),
         (row0_ rp + stride_ rp * (r + 1) - pad_bytes rp (r + 1)).
  split; [apply Row_value; [lia | rewrite Hstride; nia] |].
  split; [apply Row_value; [lia | rewrite Hstride; nia] |].
  rewrite Hrow0, Hstride, Hpr, Hpr'.
  split; [nia |]. split.
  - destruct (mod_succ_cases r (QuantumSteps g) ltac:(lia) ltac:(lia))
      as [[Hm _] | [Hm _]]; rewrite Hm; nia.
  - nia.
Qed.

Lemma AllocateAlignedRows_rows_disjoint_witness :
  exists b h' p rp,
    AllocateAlignedRows geometry_4k 4 (Extents2D.mk 100 10) (mkHeap ∅ 100)
    = Returns (b, h') /\
    RowVectorBatch.All 4 b = Some p /\
    RowPtrFromBatch 4 true geometry_4k b = Some rp /\
    row_mask_ rp = QuantumSteps geometry_4k - 1 /\
    forall r, 0 <= r < 100 ->
      exists a a',
        Row true geometry_4k rp r = Some a /\
        Row true geometry_4k rp (r + 1) = Some a' /\
        p <= a /\ a + 10 <= a' /\
        a + 10 <= p + RowVectorBatch.padded geometry_4k 4 (Extents2D.mk 100 10)
                        (StrideForCyclicOffsets 4 10).
Proof.
  apply (AllocateAlignedRows_rows_disjoint geometry_4k 4 true (Extents2D.mk 100 10)
           (mkHeap ∅ 100)).
  - reflexivity.
  - reflexivity.
  - cbn. lia.
  - vm_compute. discriminate.
  - cbn. lia.
  - cbn. lia.
  - vm_compute. discriminate.
  - vm_compute. discriminate.
Defined.

(** ** [AllocClasses] *)

(** X11. [AllocClasses<T>(num, args...)] returns an empty handle, runs no
    constructor and allocates nothing exactly when [num * sizeof(T)]
    overflows; otherwise it constructs the [num] elements in index order,
    and releasing the handle destroys the same [num] elements in the same
    order before the memory is freed once. *)
Theorem AllocClasses_construct_destroy (g : Geometry) (kSize num : Z) (h : Heap) :
  1 <= kSize -> 0 <= num ->
  let a := fst (fst (AllocClasses g kSize num h)) in
  let h' := snd (fst (AllocClasses g kSize num h)) in
  let events := snd (AllocClasses g kSize num h) in
  (class_get a = None <-> SizeT.max < num * kSize) /\
  (SizeT.max < num * kSize ->
   events = [] /\ h' = h /\ AlignedClassPtr_release a = Some []) /\
  (num * kSize <= SizeT.max ->
   exists p bytes,
     class_get a = Some p /\
     events = Constructed <$> size_t_range num /\
     length events = Z.to_nat num /\
     AlignedClassPtr_release a
     = Some ((Destroyed <$> size_t_range num) ++ [Freed p bytes])).
Proof.
  intros Hk Hn. cbv zeta.
  destruct (Alloc_bytes_check kSize num Hk Hn) as [Hbytes Hcheck].
  cbv zeta in Hbytes, Hcheck.
  pose proof (overflow_check kSize num Hk Hn) as Hov.
  unfold AllocClasses. cbv zeta. rewrite Hcheck, Hbytes.
  destruct (Z.eqb_spec (SizeT.wrap (num * kSize) / kSize) num) as [Heq | Hne]; cbn.
  - apply Hov in Heq.
    split; [split; [discriminate | lia] |].
    split; [lia |]. intros _.
    eexists _, _. split; [reflexivity |]. split; [reflexivity |].
    split; [| reflexivity].
    unfold size_t_range. rewrite !length_fmap, length_seq. reflexivity.
  - assert (Hgt : SizeT.max < num * kSize).
    { destruct (Z_le_gt_dec (num * kSize) SizeT.max) as [Hle | Hgt]; [| lia].
      apply Hov in Hle. contradiction. }
    split; [split; [intros _; exact Hgt | reflexivity] |].
    split; [auto | lia].
Qed.

Lemma AllocClasses_construct_destroy_witness :
  let a := fst (fst (AllocClasses geometry_4k 24 3 (mkHeap ∅ 100))) in
  let h' := snd (fst (AllocClasses geometry_4k 24 3 (mkHeap ∅ 100))) in
  let events := snd (AllocClasses geometry_4k 24 3 (mkHeap ∅ 100)) in
  (class_get a = None <-> SizeT.max < 3 * 24) /\
  (SizeT.max < 3 * 24 ->
   events = [] /\ h' = mkHeap ∅ 100 /\ AlignedClassPtr_release a = Some []) /\
  (3 * 24 <= SizeT.max ->
   exists p bytes,
     class_get a = Some p /\
     events = Constructed <$> size_t_range 3 /\
     length events = Z.to_nat 3 /\
     AlignedClassPtr_release a
     = Some ((Destroyed <$> size_t_range 3) ++ [Freed p bytes])).
Proof.
  apply (AllocClasses_construct_destroy geometry_4k 24 3 (mkHeap ∅ 100)); lia.
Defined.

(** * Further properties of the weight storage *)

Local Open Scope nat_scope.

Section StorageProperties.
Context `{ext : Externals}.

Lemma on_each_member_config {X : Type}
    (f : Type_ -> ModelWeightsPtrs -> X -> ModelWeightsPtrs * X)
    (st : ModelWeightsStorage) (x : X) :
  config_ (fst (on_each_member f st x)) = config_ st.
Proof.
  unfold on_each_member.
  destruct (on_member (f kF32) (float_weights_ st) x) as [fw x1].
  destruct (on_member (f kBF16) (bf16_weights_ st) x1) as [bw x2].
  destruct (on_member (f kSFP) (sfp_weights_ st) x2) as [sw x3].
  destruct (on_member (f kNUQ) (nuq_weights_ st) x3) as [nw x4].
  reflexivity.
Qed.

Lemma on_each_member_storage_config
    (f : Type_ -> ModelWeightsPtrs -> list MatStorage ->
         ModelWeightsPtrs * list MatStorage)
    (st : ModelWeightsStorage) :
  config_ (on_each_member_storage f st) = config_ st.
Proof.
  unfold on_each_member_storage.
  pose proof (on_each_member_config f st (model_storage_ st)) as H.
  destruct (on_each_member f st (model_storage_ st)) as [st' ms]. exact H.
Qed.

Lemma CreateForType_config (t : Type_) (pool : ThreadPool)
    (st st' : ModelWeightsStorage) :
  CreateForType t pool st = Returns st' -> config_ st' = config_ st.
Proof. destruct t; cbn; intros H; inversion H; reflexivity. Qed.

Lemma CreateForType_unsupported (t : Type_) (pool : ThreadPool)
    (st : ModelWeightsStorage) :
  supported t = false -> exists msg, CreateForType t pool st = Aborts msg.
Proof. destruct t; try discriminate; cbn; eauto. Qed.

Lemma CreateForType_supported (t : Type_) (pool : ThreadPool)
    (st : ModelWeightsStorage) :
  supported t = true -> exists st', CreateForType t pool st = Returns st'.
Proof. destruct t; try discriminate; cbn; eauto. Qed.

Lemma CallForModelWeightT_config {S : Type}
    (func : ModelWeightsPtrs -> S -> Outcome (ModelWeightsPtrs * S))
    (st st' : ModelWeightsStorage) (s s' : S) :
  CallForModelWeightT func st s = Returns (st', s') -> config_ st' = config_ st.
Proof.
  unfold CallForModelWeightT.
  destruct (float_weights_ st) as [w |];
    [| destruct (bf16_weights_ st) as [w |];
       [| destruct (sfp_weights_ st) as [w |];
          [| destruct (nuq_weights_ st) as [w |]; [| discriminate]]]];
    cbn; destruct (func w s) as [[w' s''] | |]; cbn; intros H; inversion H;
    reflexivity.
Qed.

Lemma Load_tensors_config (fet : ForEachType) (loader : ReadFromBlobStore)
    (scales : list float) (pool : ThreadPool) (tok : option string)
    (st : ModelWeightsStorage) (r : LoadResult) :
  Load_tensors fet loader scales pool tok st = Returns r ->
  config_ (r.1.2) = config_ st /\ r.2 = tok.
Proof.
  unfold Load_tensors.
  destruct (CreateForType (weight (config_ st)) pool st) as [st1 | |] eqn:Hc;
    cbn; try discriminate.
  apply CreateForType_config in Hc.
  destruct (CallForModelWeightT _ st1 loader) as [[st2 loader2] | |] eqn:Hcall;
    cbn; try discriminate.
  apply CallForModelWeightT_config in Hcall.
  destruct (ReadAll _ pool (model_storage_ st2)) as [err ms].
  destruct (negb (err =? 0)%Z); intros H; inversion H; subst; cbn.
  - rewrite on_each_member_config. cbn. split; [congruence | reflexivity].
  - split; [| reflexivity].
    assert (Hcopy : forall s, config_ (match fet with
                                      | kLoadNoToc => AllocAndCopyWithTranspose pool s
                                      | _ => s
                                      end) = config_ s).
    { intros s. destruct fet; try reflexivity.
      apply on_each_member_storage_config. }
    rewrite Hcopy.
    destruct (negb _).
    + unfold GetOrApplyScales. rewrite !on_each_member_config. cbn. congruence.
    + rewrite on_each_member_config. cbn. congruence.
Qed.

(** X12. [Allocate(config, weight_type, pool)] aborts on an unsupported
    weight type; on a supported one it returns, the stored configuration
    is [config] with its weight type replaced by [weight_type], and the
    container of [weight_type] is live. *)
Theorem Allocate_config_and_container (config : ModelConfig) (t : Type_)
    (pool : ThreadPool) (st : ModelWeightsStorage) :
  (supported t = false -> exists msg, Allocate config t pool st = Aborts msg) /\
  (supported t = true ->
   exists st',
     Allocate config t pool st = Returns st' /\
     config_ st' = set_weight config t /\
     weight (config_ st') = t /\
     live t st' = true).
Proof.
  unfold Allocate. split.
  - intros Hs.
    destruct (CreateForType_unsupported t pool
                (set_config (set_config st config)
                   (set_weight (config_ (set_config st config)) t)) Hs) as [msg Hc].
    rewrite Hc. cbn. eauto.
  - intros Hs.
    destruct (CreateForType_supported t pool
                (set_config (set_config st config)
                   (set_weight (config_ (set_config st config)) t)) Hs) as [st1 Hc].
    rewrite Hc. cbn. eexists. split; [reflexivity |].
    pose proof (CreateForType_config _ _ _ _ Hc) as Hcfg.
    pose proof (CreateForType_adds_live _ _ _ _ Hc) as (_ & Hlive & _).
    rewrite on_each_member_storage_config, Hcfg. cbn.
    split; [reflexivity |]. split; [reflexivity |].
    rewrite (on_each_member_storage_same_live _ st1 t). exact Hlive.
Qed.

(** What a storage looks like while only the container of [t] has been
    created. *)
Lemma live_count_only (t : Type_) (st : ModelWeightsStorage) :
  supported t = true ->
  (forall t', t' <> t -> live t' st = false) ->
  live_count st = Nat.b2n (live t st).
Proof.
  intros Hs Hother. unfold live_count.
  destruct t; try discriminate;
    rewrite ?(Hother kF32), ?(Hother kBF16), ?(Hother kSFP), ?(Hother kNUQ)
      by discriminate; cbn; lia.
Qed.

Lemma call_has_type_adds_live (t : Type_) (c : Call) (st st' : ModelWeightsStorage) :
  call_has_type t c = true -> call c st = Returns st' -> adds_live t st st'.
Proof.
  destruct c as [config t0 pool | weights mt wt wr pool tok | t0 pool]; cbn;
    try discriminate; intros Ht Hc; apply bool_decide_eq_true_1 in Ht; subst t0.
  - eapply Allocate_adds_live; eassumption.
  - eapply CreateForType_adds_live; eassumption.
Qed.

Lemma calls_same_type (t : Type_) (cs : list Call) (st st' : ModelWeightsStorage) :
  Forall (fun c => call_has_type t c = true) cs ->
  (forall t', t' <> t -> live t' st = false) ->
  calls cs st = Returns st' ->
  (forall t', t' <> t -> live t' st' = false) /\
  (cs <> [] -> supported t = true /\ live t st' = true).
Proof.
  intros Hall. revert st. induction Hall as [| c rest Hc Hrest IH]; intros st Hinv Hrun.
  - cbn in Hrun. inversion Hrun; subst. split; [exact Hinv | congruence].
  - cbn in Hrun. destruct (call c st) as [st1 | |] eqn:Hcall; cbn in Hrun;
      try discriminate.
    destruct (call_has_type_adds_live t c st st1 Hc Hcall) as (Hs & Hl & Ho).
    assert (Hinv1 : forall t', t' <> t -> live t' st1 = false).
    { intros t' Hne. rewrite Ho by exact Hne. apply Hinv. exact Hne. }
    destruct (IH st1 Hinv1 Hrun) as [Hinv' Hlive'].
    split; [exact Hinv' |]. intros _. split; [exact Hs |].
    destruct rest as [| c' rest'].
    + cbn in Hrun. inversion Hrun; subst. exact Hl.
    + apply Hlive'. discriminate.
Qed.

(** X13. Over any sequence of [Allocate] and [CreateForType] calls that
    all pass the same weight type, on a fresh storage, exactly one
    container is live after the first call and stays the only one. *)
Theorem same_type_calls_one_live (t : Type_) (cs : list Call)
    (cfg : ModelConfig) (st' : ModelWeightsStorage) :
  Forall (fun c => call_has_type t c = true) cs -> cs <> [] ->
  calls cs (ModelWeightsStorage_new cfg) = Returns st' ->
  live t st' = true /\ live_count st' = 1.
Proof.
  intros Hall Hne Hrun.
  assert (Hnew : forall t', t' <> t -> live t' (ModelWeightsStorage_new cfg) = false)
    by (intros t' _; destruct t'; reflexivity).
  destruct (calls_same_type t cs _ st' Hall Hnew Hrun) as [Hinv Hlive].
  destruct (Hlive Hne) as [Hs Hl].
  split; [exact Hl |].
  rewrite (live_count_only t st' Hs Hinv), Hl. reflexivity.
Qed.

End StorageProperties.

Lemma Allocate_config_and_container_witness :
  (exists msg,
     Allocate (ext := example_externals) example_config kUnknown 0
       (ModelWeightsStorage_new example_config) = Aborts msg) /\
  (exists st',
     Allocate (ext := example_externals) example_config kNUQ 0
       (ModelWeightsStorage_new example_config) = Returns st' /\
     config_ st' = set_weight example_config kNUQ /\
     weight (config_ st') = kNUQ /\
     live kNUQ st' = true).
Proof.
  split.
  - apply (proj1 (Allocate_config_and_container (ext := example_externals)
                    example_config kUnknown 0 (ModelWeightsStorage_new example_config))).
    reflexivity.
  - apply (proj2 (Allocate_config_and_container (ext := example_externals)
                    example_config kNUQ 0 (ModelWeightsStorage_new example_config))).
    reflexivity.
Defined.

Lemma same_type_calls_one_live_witness :
  exists st',
    calls (ext := example_externals)
      [CallAllocate example_config kSFP 0; CallCreateForType kSFP 0;
       CallAllocate example_config kSFP 0]
      (ModelWeightsStorage_new example_config) = Returns st' /\
    live kSFP st' = true /\ live_count st' = 1.
Proof.
  eexists. split; [vm_compute; reflexivity |].
  eapply (same_type_calls_one_live (ext := example_externals) kSFP
            [CallAllocate example_config kSFP 0; CallCreateForType kSFP 0;
             CallAllocate example_config kSFP 0] example_config).
  - repeat constructor.
  - discriminate.
  - vm_compute. reflexivity.
Defined.

Section MoreLoadProperties.
Context `{ext : Externals}.

(** X14. What the code 0 from [Load] means: the container of the weight
    type of the resulting configuration is live, or the file has a table
    of contents whose configuration loaded without error but with
    [model_dim == 0], in which case [Load] returns the code 0 of
    [LoadConfig] before any container is created. *)
Theorem Load_ok_container (weights : Path) (model_type : Model)
    (weight_type : Type_) (wrapping : PromptWrapping) (pool : ThreadPool)
    (tok tok' : option string) (st st' : ModelWeightsStorage) :
  Load weights model_type weight_type wrapping pool tok st
  = Returns (0%Z, st', tok') ->
  (supported (weight (config_ st')) = true /\
   live (weight (config_ st')) st' = true) \/
  (HaveToc (ReadFromBlobStore_open weights) = true /\
   model_dim (config_ st') = 0%Z /\ same_live st st' /\ tok' = tok).
Proof.
  unfold Load. destruct (negb (Exists weights)); [discriminate |].
  assert (Htensors : forall fet loader scales tk s,
            Load_tensors fet loader scales pool tk s = Returns (0%Z, st', tok') ->
            supported (weight (config_ st')) = true /\
            live (weight (config_ st')) st' = true).
  { intros fet loader scales tk s H.
    destruct (Load_tensors_config _ _ _ _ _ _ _ H) as [Hcfg _].
    destruct (Load_tensors_adds_live _ _ _ _ _ _ _ H) as (Hs & Hl & _).
    cbn in Hcfg, Hl. rewrite Hcfg. auto. }
  destruct (HaveToc (ReadFromBlobStore_open weights)).
  - destruct (LoadConfig _ (config_ st)) as [err cfg].
    destruct (Z.eqb_spec err 0) as [-> | Hne]; cbn [negb orb].
    + destruct (Z.eqb_spec (model_dim (config_ (set_config st cfg))) 0) as [Hz | Hnz].
      * intros H. inversion H; subst. right.
        split; [reflexivity |]. split; [exact Hz |].
        split; [apply set_config_same_live | reflexivity].
      * destruct tok as [s |].
        -- destruct (LoadTokenizer _) as [err' tok1].
           destruct (Z.eqb_spec err' 0) as [-> | Hne']; cbn [negb].
           ++ intros H. left. eapply Htensors. exact H.
           ++ intros H. inversion H. congruence.
        -- intros H. left. eapply Htensors. exact H.
    + intros H. inversion H. congruence.
  - destruct weight_type, model_type; cbv beta iota zeta;
      try (intros H; inversion H; fail);
      intros H; left; eapply Htensors; exact H.
Qed.

(** X15. [Load] of an existing file without a table of contents, with a
    known model and weight type: an unsupported weight type aborts;
    otherwise, whenever [Load] returns past the type check, the stored
    configuration is the registry's configuration of [model_type] with the
    weight type and the wrapping the caller passed, and the container of
    [weight_type] is live. *)
Theorem Load_legacy_config (weights : Path) (model_type : Model)
    (weight_type : Type_) (wrapping : PromptWrapping) (pool : ThreadPool)
    (tok : option string) (st : ModelWeightsStorage) :
  Exists weights = true ->
  HaveToc (ReadFromBlobStore_open weights) = false ->
  weight_type <> kUnknown -> model_type <> UNKNOWN ->
  (supported weight_type = false ->
   exists msg,
     Load weights model_type weight_type wrapping pool tok st = Aborts msg) /\
  (forall r,
     Load weights model_type weight_type wrapping pool tok st = Returns r ->
     config_ (r.1.2)
     = set_wrapping (set_weight (ConfigFromModel model_type) weight_type) wrapping /\
     live weight_type (r.1.2) = true /\ r.2 = tok).
Proof.
  intros Hex Htoc Hwt Hmt. unfold Load. rewrite Hex, Htoc. cbn [negb].
  set (st0 := set_config
                (set_config (set_config st (ConfigFromModel model_type))
                   (set_weight (config_ (set_config st (ConfigFromModel model_type)))
                      weight_type))
                (set_wrapping
                   (config_ (set_config (set_config st (ConfigFromModel model_type))
                      (set_weight (config_ (set_config st (ConfigFromModel model_type)))
                         weight_type)))
                   wrapping)).
  assert (Hw0 : weight (config_ st0) = weight_type) by reflexivity.
  assert (Hc0 : config_ st0
                = set_wrapping (set_weight (ConfigFromModel model_type) weight_type)
                    wrapping) by reflexivity.
  assert (Hbody : forall scales,
    (supported weight_type = false ->
     exists msg, Load_tensors kLoadNoToc (ReadFromBlobStore_open weights) scales
                   pool tok st0 = Aborts msg) /\
    (forall r, Load_tensors kLoadNoToc (ReadFromBlobStore_open weights) scales
                 pool tok st0 = Returns r ->
       config_ (r.1.2)
       = set_wrapping (set_weight (ConfigFromModel model_type) weight_type) wrapping /\
       live weight_type (r.1.2) = true /\ r.2 = tok)).
  { intros scales. split.
    - intros Hs. unfold Load_tensors. rewrite Hw0.
      destruct (CreateForType_unsupported weight_type pool st0 Hs) as [msg Hc].
      rewrite Hc. cbn. eauto.
    - intros r H.
      destruct (Load_tensors_config _ _ _ _ _ _ _ H) as [Hcfg Htok].
      destruct (Load_tensors_adds_live _ _ _ _ _ _ _ H) as (_ & Hl & _).
      rewrite Hw0 in Hl. rewrite Hcfg, Hc0. auto. }
  destruct weight_type, model_type; try contradiction; apply Hbody.
Qed.

(** X16. [GetOrApplyScales] and [AllocAndCopyWithTranspose] forward to
    the live containers only: they keep the configuration and the set of
    live containers, and on a storage without a live container they change
    nothing, the scales included. *)
Theorem forwarders_keep_containers (scales : list float) (pool : ThreadPool)
    (st : ModelWeightsStorage) :
  (config_ (GetOrApplyScales scales st).1 = config_ st /\
   same_live st (GetOrApplyScales scales st).1) /\
  (config_ (AllocAndCopyWithTranspose pool st) = config_ st /\
   same_live st (AllocAndCopyWithTranspose pool st)) /\
  (live_count st = 0 ->
   GetOrApplyScales scales st = (st, scales) /\
   AllocAndCopyWithTranspose pool st = st).
Proof.
  split; [| split].
  - split; [apply on_each_member_config | apply on_each_member_same_live].
  - split; [apply on_each_member_storage_config
           | apply on_each_member_storage_same_live].
  - unfold live_count, live. intros Hcount.
    destruct st as [c [fw |] [bw |] [sw |] [nw |] ms]; cbn in Hcount;
      try discriminate.
    split; reflexivity.
Qed.

End MoreLoadProperties.

Lemma Load_ok_container_witness :
  exists st' tok',
    Load (ext := example_externals) (mkPath "toc.sbs") UNKNOWN kUnknown 0%Z 0
         None (ModelWeightsStorage_new example_config) = Returns (0%Z, st', tok') /\
    ((supported (weight (config_ st')) = true /\
      live (weight (config_ st')) st' = true) \/
     (HaveToc (Externals := example_externals)
        (ReadFromBlobStore_open (mkPath "toc.sbs")) = true /\
      model_dim (config_ st') = 0%Z /\
      same_live (ModelWeightsStorage_new example_config) st' /\ tok' = None)).
Proof.
  eexists _, _. split; [vm_compute; reflexivity |].
  eapply (Load_ok_container (ext := example_externals) (mkPath "toc.sbs")
            UNKNOWN kUnknown 0%Z 0 None).
  vm_compute. reflexivity.
Defined.

Lemma Load_legacy_config_witness :
  (exists msg,
     Load (ext := example_externals) (mkPath "legacy.sbs") (KnownModel 1)
       (kOtherType 7) 2%Z 0 None (ModelWeightsStorage_new example_config)
     = Aborts msg) /\
  (forall r,
     Load (ext := example_externals) (mkPath "legacy.sbs") (KnownModel 1) kBF16 2%Z 0
       None (ModelWeightsStorage_new example_config) = Returns r ->
     config_ (r.1.2)
     = set_wrapping
         (set_weight (ConfigFromModel (Externals := example_externals) (KnownModel 1))
            kBF16) 2%Z /\
     live kBF16 (r.1.2) = true /\ r.2 = None).
Proof.
  split.
  - apply (proj1 (Load_legacy_config (ext := example_externals) (mkPath "legacy.sbs")
                    (KnownModel 1) (kOtherType 7) 2%Z 0 None
                    (ModelWeightsStorage_new example_config)
                    eq_refl eq_refl ltac:(discriminate) ltac:(discriminate))).
    reflexivity.
  - apply (proj2 (Load_legacy_config (ext := example_externals) (mkPath "legacy.sbs")
                    (KnownModel 1) kBF16 2%Z 0 None
                    (ModelWeightsStorage_new example_config)
                    eq_refl eq_refl ltac:(discriminate) ltac:(discriminate))).
Defined.

Lemma forwarders_keep_containers_witness :
  GetOrApplyScales (ext := example_externals) [float_1]
    (ModelWeightsStorage_new example_config)
  = (ModelWeightsStorage_new example_config, [float_1]) /\
  AllocAndCopyWithTranspose (ext := example_externals) 0
    (ModelWeightsStorage_new example_config)
  = ModelWeightsStorage_new example_config.
Proof.
  apply (proj2 (proj2 (forwarders_keep_containers (ext := example_externals)
                         [float_1] 0 (ModelWeightsStorage_new example_config)))).
  reflexivity.
Defined.

(** * Further properties of [Reshape] *)

(** An index below [A * B * Q] splits into a block [a < A], a sub-block
    [b < B] and an offset [i < Q]. *)
Lemma index_decompose (A B Q k : nat) :
  k < A * B * Q ->
  k / (B * Q) < A /\ (k mod (B * Q)) / Q < B /\ k mod Q < Q /\
  k / (B * Q) * (B * Q) + ((k mod (B * Q)) / Q * Q + k mod Q) = k.
Proof.
  intros Hk.
  assert (HQ : Q <> 0) by (intros ->; lia).
  assert (HB : B <> 0) by (intros ->; lia).
  assert (HBQ : B * Q <> 0) by nia.
  pose proof (Nat.div_mod_eq k (B * Q)) as Hdm.
  pose proof (Nat.mod_upper_bound k (B * Q) HBQ) as Hr.
  pose proof (Nat.div_mod_eq (k mod (B * Q)) Q) as Hdm2.
  pose proof (Nat.mod_upper_bound (k mod (B * Q)) Q HQ) as Hi.
  assert (Hmod : (k mod (B * Q)) mod Q = k mod Q).
  { rewrite Hdm at 2.
    replace (B * Q * (k / (B * Q)) + k mod (B * Q))
      with (k mod (B * Q) + (B * (k / (B * Q))) * Q) by lia.
    rewrite Nat.Div0.mod_add. reflexivity. }
  split.
  - apply Nat.Div0.div_lt_upper_bound. lia.
  - split.
    + apply Nat.Div0.div_lt_upper_bound. lia.
    + split; [apply Nat.mod_upper_bound; exact HQ |].
      rewrite <- Hmod. lia.
Qed.

Lemma block_unique (B a b a' b' : nat) :
  b < B -> b' < B -> a * B + b = a' * B + b' -> a = a' /\ b = b'.
Proof.
  intros Hb Hb' Heq.
  assert (a = a') by nia. subst. lia.
Qed.

Lemma reshape_dest_spec (c : LayerConfig.t) (k : nat) :
  let M := LayerConfig.model_dim c in
  let H := LayerConfig.heads c in
  let Q := LayerConfig.qkv_dim c in
  k < M * H * Q ->
  exists h m i,
    h < H /\ m < M /\ i < Q /\
    src_index c h m i = k /\ reshape_dest c k = dst_index c m h i.
Proof.
  intros M H Q Hk.
  destruct (index_decompose H M Q k ltac:(lia)) as (Hh & Hm & Hi & Heq).
  exists (k / (M * Q)), ((k mod (M * Q)) / Q), (k mod Q).
  split; [exact Hh |]. split; [exact Hm |]. split; [exact Hi |].
  split; [| reflexivity].
  unfold src_index. fold M Q. lia.
Qed.

Lemma dst_index_bound (c : LayerConfig.t) (m h i : nat) :
  m < LayerConfig.model_dim c -> h < LayerConfig.heads c -> i < LayerConfig.qkv_dim c ->
  dst_index c m h i
  < LayerConfig.model_dim c * LayerConfig.heads c * LayerConfig.qkv_dim c.
Proof.
  intros Hm Hh Hi. unfold dst_index.
  pose proof (dst_block_bound _ _ (LayerConfig.qkv_dim c) m h Hm Hh). lia.
Qed.

Lemma dst_index_inj (c : LayerConfig.t) (m h i m' h' i' : nat) :
  h < LayerConfig.heads c -> i < LayerConfig.qkv_dim c ->
  h' < LayerConfig.heads c -> i' < LayerConfig.qkv_dim c ->
  dst_index c m h i = dst_index c m' h' i' -> m = m' /\ h = h' /\ i = i'.
Proof.
  intros Hh Hi Hh' Hi' Heq. unfold dst_index in Heq.
  set (H := LayerConfig.heads c) in *. set (Q := LayerConfig.qkv_dim c) in *.
  assert (Hb : h * Q + i < H * Q) by nia.
  assert (Hb' : h' * Q + i' < H * Q) by nia.
  destruct (block_unique (H * Q) m (h * Q + i) m' (h' * Q + i') Hb Hb' Heq)
    as [Hm Hrest].
  destruct (block_unique Q h i h' i' Hi Hi' Hrest) as [Hheq Hieq].
  auto.
Qed.

Section MoreReshapeProperties.
Context `{ext : Externals}.

(** [Reshape] with a source and a destination: what it returns, with the
    assembled buffer spelled out. *)
Lemma Reshape_runs (storage : option MatStorage) (lw : LayerWeightsPtrs)
    (packed : list Z) :
  data (attn_vec_einsum_w lw) = Some packed ->
  is_Some storage \/ is_Some (data (att_weights lw)) ->
  let c := layer_config lw in
  let num := LayerConfig.model_dim c * LayerConfig.heads c * LayerConfig.qkv_dim c in
  let assembled :=
    Reshape_rows c (DecompressAndZeroPad packed 0 (AllocateAligned 1 num) num)
                 (AllocateAligned 2 num) in
  exists lw' storage' dest,
    Reshape storage lw = Returns (lw', storage') /\
    data (att_weights lw') = Some (nuq_encode assembled dest) /\
    length assembled = num /\
    (forall m h i,
       m < LayerConfig.model_dim c -> h < LayerConfig.heads c ->
       i < LayerConfig.qkv_dim c ->
       assembled !! dst_index c m h i = Some (nuq_decode packed (src_index c h m i))).
Proof.
  intros Hsrc Hdest c num assembled.
  set (M := LayerConfig.model_dim c) in *.
  set (H := LayerConfig.heads c) in *.
  set (Q := LayerConfig.qkv_dim c) in *.
  set (tmp := DecompressAndZeroPad packed 0 (AllocateAligned 1 num) num) in *.
  assert (Htmp : length tmp = num).
  { unfold tmp. rewrite DecompressAndZeroPad_length. apply AllocateAligned_length. }
  destruct (Reshape_rows_done c tmp (AllocateAligned 2 num) M (le_n _) Htmp
              (AllocateAligned_length 2 num)) as [Hlen Hlayout].
  change (length assembled = num) in Hlen.
  assert (Helems : forall m h i, m < M -> h < H -> i < Q ->
            assembled !! dst_index c m h i = Some (nuq_decode packed (src_index c h m i))).
  { intros m h i Hm Hh Hi. pose proof (Hlayout m h i Hm Hh Hi) as Hl.
    change (assembled !! dst_index c m h i = tmp !! src_index c h m i) in Hl.
    rewrite Hl.
    apply DecompressAndZeroPad_lookup; [apply AllocateAligned_length |].
    unfold src_index. fold M Q.
    pose proof (src_block_bound M H Q m h Hm Hh). unfold num. lia. }
  assert (Htake : take num assembled = assembled) by (apply take_ge; lia).
  unfold Reshape. rewrite Hsrc. fold c. fold M H Q. fold num. fold tmp. fold assembled.
  destruct storage as [s |]; cbn.
  - unfold Compress. rewrite Htake.
    eexists _, _, _. split; [reflexivity |]. cbn. auto.
  - destruct Hdest as [[? Hs] | [dest Hd]]; [discriminate |].
    rewrite Hd. unfold Compress. rewrite Htake.
    eexists _, _, dest. split; [reflexivity |]. cbn. auto.
Qed.

(** X17. [Reshape] keeps every element: the values it encodes are a
    rearrangement of the decoded stream, the decoded element [k] standing
    at position [reshape_dest k], and two elements never share a
    position; so no value of the assembled buffer is left as allocated. *)
Theorem Reshape_keeps_every_element (storage : option MatStorage)
    (lw : LayerWeightsPtrs) (packed : list Z) :
  data (attn_vec_einsum_w lw) = Some packed ->
  is_Some storage \/ is_Some (data (att_weights lw)) ->
  let c := layer_config lw in
  let num := LayerConfig.model_dim c * LayerConfig.heads c * LayerConfig.qkv_dim c in
  exists lw' storage' assembled dest,
    Reshape storage lw = Returns (lw', storage') /\
    data (att_weights lw') = Some (nuq_encode assembled dest) /\
    length assembled = num /\
    (forall k, k < num ->
       reshape_dest c k < num /\
       assembled !! reshape_dest c k = Some (nuq_decode packed k)) /\
    (forall k k', k < num -> k' < num ->
       reshape_dest c k = reshape_dest c k' -> k = k').
Proof.
  intros Hsrc Hdest. cbv zeta.
  destruct (Reshape_runs storage lw packed Hsrc Hdest)
    as (lw' & storage' & dest & Hrun & Hdata & Hlen & Helems).
  cbv zeta in Hlen, Helems.
  eexists lw', storage', _, dest.
  split; [exact Hrun |]. split; [exact Hdata |]. split; [exact Hlen |].
  split.
  - intros k Hk.
    destruct (reshape_dest_spec (layer_config lw) k Hk)
      as (h & m & i & Hh & Hm & Hi & Hsrck & Hd).
    rewrite Hd. split; [apply dst_index_bound; assumption |].
    rewrite (Helems m h i Hm Hh Hi), Hsrck. reflexivity.
  - intros k k' Hk Hk' Heq.
    destruct (reshape_dest_spec (layer_config lw) k Hk)
      as (h & m & i & Hh & Hm & Hi & Hsrck & Hd).
    destruct (reshape_dest_spec (layer_config lw) k' Hk')
      as (h' & m' & i' & Hh' & Hm' & Hi' & Hsrck' & Hd').
    rewrite Hd, Hd' in Heq.
    destruct (dst_index_inj (layer_config lw) m h i m' h' i' Hh Hi Hh' Hi' Heq)
      as (-> & -> & ->).
    congruence.
Qed.

(** X18. With a single head, or with a model dimension of 1, the two
    layouts coincide: [Reshape] encodes the decoded stream as it is. *)
Theorem Reshape_single_head (storage : option MatStorage)
    (lw : LayerWeightsPtrs) (packed : list Z) :
  data (attn_vec_einsum_w lw) = Some packed ->
  is_Some storage \/ is_Some (data (att_weights lw)) ->
  LayerConfig.heads (layer_config lw) = 1 \/
  LayerConfig.model_dim (layer_config lw) = 1 ->
  let c := layer_config lw in
  let num := LayerConfig.model_dim c * LayerConfig.heads c * LayerConfig.qkv_dim c in
  exists lw' storage' dest,
    Reshape storage lw = Returns (lw', storage') /\
    data (att_weights lw')
    = Some (nuq_encode (nuq_decode packed <$> seq 0 num) dest).
Proof.
  intros Hsrc Hdest Hone. cbv zeta.
  destruct (Reshape_runs storage lw packed Hsrc Hdest)
    as (lw' & storage' & dest & Hrun & Hdata & Hlen & Helems).
  cbv zeta in Hlen, Helems.
  exists lw', storage', dest. split; [exact Hrun |].
  rewrite Hdata. f_equal. f_equal.
  apply list_eq. intros j.
  set (c := layer_config lw) in *.
  set (num := LayerConfig.model_dim c * LayerConfig.heads c * LayerConfig.qkv_dim c) in *.
  destruct (Nat.lt_ge_cases j num) as [Hj | Hj].
  - destruct (index_decompose (LayerConfig.model_dim c) (LayerConfig.heads c)
                (LayerConfig.qkv_dim c) j Hj) as (Hm & Hh & Hi & Heq).
    pose proof (Helems _ _ _ Hm Hh Hi) as He.
    assert (Hdst : dst_index c (j / (LayerConfig.heads c * LayerConfig.qkv_dim c))
                     ((j mod (LayerConfig.heads c * LayerConfig.qkv_dim c))
                      / LayerConfig.qkv_dim c) (j mod LayerConfig.qkv_dim c) = j)
      by (unfold dst_index; lia).
    assert (Hsrcj : src_index c
                      ((j mod (LayerConfig.heads c * LayerConfig.qkv_dim c))
                       / LayerConfig.qkv_dim c)
                      (j / (LayerConfig.heads c * LayerConfig.qkv_dim c))
                      (j mod LayerConfig.qkv_dim c) = j).
    { unfold src_index. destruct Hone as [H1 | M1].
      - rewrite H1 in *. nia.
      - rewrite M1 in *. nia. }
    rewrite Hdst, Hsrcj in He. rewrite He.
    rewrite list_lookup_fmap, lookup_seq_lt by exact Hj. reflexivity.
  - rewrite !lookup_ge_None_2; [reflexivity | |].
    + rewrite length_fmap, length_seq. exact Hj.
    + lia.
Qed.

Lemma foldl_CopyBytes_length (from out : list float) (src dst : nat -> nat)
    (count k : nat) :
  length (foldl (fun o h => CopyBytes from (src h) o (dst h) count) out (seq 0 k))
  = length out.
Proof.
  induction k as [| k IH]; [reflexivity |].
  rewrite foldl_seq_S, CopyBytes_length. exact IH.
Qed.

Lemma Reshape_row_length (c : LayerConfig.t) (tmp out : list float) (m : nat) :
  length (Reshape_row c tmp out m) = length out.
Proof. unfold Reshape_row. apply foldl_CopyBytes_length. Qed.

Lemma Reshape_row_checked_ok (c : LayerConfig.t) (tmp out : list float) (m : nat) :
  let M := LayerConfig.model_dim c in
  let H := LayerConfig.heads c in
  let Q := LayerConfig.qkv_dim c in
  m < M -> length tmp = M * H * Q -> length out = M * H * Q ->
  Reshape_row_checked c tmp (Returns out) m = Returns (Reshape_row c tmp out m).
Proof.
  intros M H Q Hm Htmp Hout. unfold Reshape_row_checked, Reshape_row. fold M H Q.
  assert (Hk : forall k, k <= H ->
    foldl (fun out h => o ← out;
             CopyBytes_checked tmp (h * M * Q + m * Q) o (m * H * Q + h * Q) Q)
          (Returns out) (seq 0 k)
    = Returns (foldl (fun out h =>
                 CopyBytes tmp (h * M * Q + m * Q) out (m * H * Q + h * Q) Q)
               out (seq 0 k))).
  { induction k as [| k IH]; intros Hle; [reflexivity |].
    rewrite !foldl_seq_S, IH by lia. cbn.
    unfold CopyBytes_checked.
    rewrite (foldl_CopyBytes_length tmp out (fun h => h * M * Q + m * Q)
               (fun h => m * H * Q + h * Q) Q k).
    pose proof (src_block_bound M H Q m k Hm ltac:(lia)).
    pose proof (dst_block_bound M H Q m k Hm ltac:(lia)).
    assert (Hsrc_ok : (k * M * Q + m * Q + Q <=? length tmp) = true)
      by (apply Nat.leb_le; lia).
    assert (Hdst_ok : (m * H * Q + k * Q + Q <=? length out) = true)
      by (apply Nat.leb_le; lia).
    rewrite Hsrc_ok, Hdst_ok. reflexivity. }
  apply Hk. lia.
Qed.

(** X19. The copy loops of [Reshape] stay inside the two temporaries of
    [model_dim * heads * qkv_dim] floats: with the bounds of every
    [CopyBytes] checked they run to the end and give the same buffer. *)
Theorem Reshape_copies_in_bounds (c : LayerConfig.t) (tmp out : list float) :
  let num := LayerConfig.model_dim c * LayerConfig.heads c * LayerConfig.qkv_dim c in
  length tmp = num -> length out = num ->
  Reshape_rows_checked c tmp out = Returns (Reshape_rows c tmp out).
Proof.
  intros num Htmp Hout. unfold Reshape_rows_checked, Reshape_rows.
  assert (Hk : forall k, k <= LayerConfig.model_dim c ->
    foldl (Reshape_row_checked c tmp) (Returns out) (seq 0 k)
    = Returns (foldl (Reshape_row c tmp) out (seq 0 k)) /\
    length (foldl (Reshape_row c tmp) out (seq 0 k)) = num).
  { induction k as [| k IH]; intros Hle; [split; [reflexivity | exact Hout] |].
    destruct (IH ltac:(lia)) as [Hrun Hlen].
    rewrite !foldl_seq_S, Hrun.
    split; [| rewrite Reshape_row_length; exact Hlen].
    apply Reshape_row_checked_ok; [lia | exact Htmp | exact Hlen]. }
  apply Hk. lia.
Qed.

End MoreReshapeProperties.

Lemma Reshape_keeps_every_element_witness :
  exists lw' storage' assembled dest,
    Reshape (ext := example_externals) (Some (mkMatStorage 12 None)) example_layer
    = Returns (lw', storage') /\
    data (att_weights lw')
    = Some (nuq_encode (Externals := example_externals) assembled dest) /\
    length assembled = 3 * 2 * 2 /\
    (forall k, k < 3 * 2 * 2 ->
       reshape_dest (LayerConfig.mk 3 2 2) k < 3 * 2 * 2 /\
       assembled !! reshape_dest (LayerConfig.mk 3 2 2) k
       = Some (nuq_decode (Externals := example_externals) (Z.of_nat <$> seq 0 12) k)) /\
    (forall k k', k < 3 * 2 * 2 -> k' < 3 * 2 * 2 ->
       reshape_dest (LayerConfig.mk 3 2 2) k = reshape_dest (LayerConfig.mk 3 2 2) k' ->
       k = k').
Proof.
  apply (Reshape_keeps_every_element (ext := example_externals)
           (Some (mkMatStorage 12 None)) example_layer (Z.of_nat <$> seq 0 12)).
  - reflexivity.
  - left. eauto.
Defined.

Lemma Reshape_single_head_witness :
  exists lw' storage' dest,
    Reshape (ext := example_externals) (Some (mkMatStorage 6 None))
      (mkLayerWeightsPtrs
         (mkMatPtr "attn_vec_einsum_w" 6 (Some [10; 11; 12; 13; 14; 15]%Z) 7%Z)
         (mkMatPtr "att_weights" 6 None float_1) (LayerConfig.mk 3 1 2))
    = Returns (lw', storage') /\
    data (att_weights lw')
    = Some (nuq_encode (Externals := example_externals)
              (nuq_decode (Externals := example_externals)
                 [10; 11; 12; 13; 14; 15]%Z <$> seq 0 (3 * 1 * 2)) dest).
Proof.
  apply (Reshape_single_head (ext := example_externals)
           (Some (mkMatStorage 6 None))
           (mkLayerWeightsPtrs
              (mkMatPtr "attn_vec_einsum_w" 6 (Some [10; 11; 12; 13; 14; 15]%Z) 7%Z)
              (mkMatPtr "att_weights" 6 None float_1) (LayerConfig.mk 3 1 2))
           [10; 11; 12; 13; 14; 15]%Z).
  - reflexivity.
  - left. eauto.
  - left. reflexivity.
Defined.

Lemma Reshape_copies_in_bounds_witness :
  Reshape_rows_checked (LayerConfig.mk 3 2 2)
    (Z.of_nat <$> seq 0 12) (replicate 12 0%Z)
  = Returns (Reshape_rows (LayerConfig.mk 3 2 2)
               (Z.of_nat <$> seq 0 12) (replicate 12 0%Z)).
Proof.
  apply (Reshape_copies_in_bounds (LayerConfig.mk 3 2 2)
           (Z.of_nat <$> seq 0 12) (replicate 12 0%Z)); reflexivity.
Defined.

(** A source one element short makes the last copy read past its end. *)
Example Reshape_copies_short_source :
  Reshape_rows_checked (LayerConfig.mk 3 2 2)
    (Z.of_nat <$> seq 0 11) (replicate 12 0%Z) = Undefined.
Proof. reflexivity. Qed.

(** * Further properties of [RandInit] and [Load] *)

Section MoreRandInitProperties.
Context `{ext : Externals}.

Lemma ForEachTensor_list_same_shape (ts1 ts2 : list MatPtr) (init : WeightInitializer) :
  Forall2 (fun t1 t2 =>
             if enumerated kLoadNoToc (Name t1)
             then Name t1 = Name t2 /\ NumElements t1 = NumElements t2 /\
                  allocated t1 = true /\ allocated t2 = true
             else t1 = t2) ts1 ts2 ->
  ForEachTensor_list kLoadNoToc WeightInitializer_call ts1 init
  = ForEachTensor_list kLoadNoToc WeightInitializer_call ts2 init /\
  exists ts' init',
    ForEachTensor_list kLoadNoToc WeightInitializer_call ts1 init = Returns (ts', init').
Proof.
  intros Hrel. revert init.
  induction Hrel as [| t1 t2 rest1 rest2 Ht Hrest IH]; intros init.
  - split; [reflexivity | cbn; eauto].
  - cbn [ForEachTensor_list].
    destruct (enumerated kLoadNoToc (Name t1)) eqn:Hen.
    + destruct Ht as (Hname & Hnum & Ha1 & Ha2).
      rewrite <- Hname, Hen.
      rewrite (WeightInitializer_call_draws t1 init Ha1),
              (WeightInitializer_call_draws t2 init Ha2).
      rewrite <- Hname, <- Hnum. cbn.
      destruct (IH (snd (draws (NumElements t1) init))) as [Heq (ts' & init' & Hrun)].
      rewrite <- Heq, Hrun. cbn. split; [reflexivity | eauto].
    + subst t2. rewrite Hen. cbn.
      destruct (IH init) as [Heq (ts' & init' & Hrun)].
      rewrite <- Heq, Hrun. cbn. split; [reflexivity | eauto].
Qed.

(** X20. [RandInit] overwrites: on two float containers with the same
    configuration whose tensors have the same names and sizes (and are
    allocated where the traversal presents them), the same generator
    leaves the same tensors and the same generator state, whatever the
    tensors held and whatever their scales were. *)
Theorem RandInit_forgets_contents (gen : mt19937)
    (st1 st2 : ModelWeightsStorage) (w1 w2 : ModelWeightsPtrs) :
  float_weights_ st1 = Some w1 -> float_weights_ st2 = Some w2 ->
  weights_config w1 = weights_config w2 ->
  Forall2 (fun t1 t2 =>
             if enumerated kLoadNoToc (Name t1)
             then Name t1 = Name t2 /\ NumElements t1 = NumElements t2 /\
                  allocated t1 = true /\ allocated t2 = true
             else t1 = t2) (tensors w1) (tensors w2) ->
  exists w' gen',
    RandInit gen st1 = Returns (set_float_weights st1 (Some w'), gen') /\
    RandInit gen st2 = Returns (set_float_weights st2 (Some w'), gen').
Proof.
  intros Hw1 Hw2 Hcfg Hrel. unfold RandInit, ForEachTensor. rewrite Hw1, Hw2.
  destruct (ForEachTensor_list_same_shape (tensors w1) (tensors w2)
              (WeightInitializer_new gen) Hrel) as [Heq (ts' & init' & Hrun)].
  rewrite <- Heq, Hrun, Hcfg. cbn. eauto.
Qed.

(** X21. On a file with a table of contents [Load] overwrites the stored
    configuration with the one [LoadConfig] produces, whether it then
    succeeds or returns an error code. *)
Theorem Load_toc_config (weights : Path) (model_type : Model)
    (weight_type : Type_) (wrapping : PromptWrapping) (pool : ThreadPool)
    (tok : option string) (st : ModelWeightsStorage) (r : LoadResult) :
  HaveToc (ReadFromBlobStore_open weights) = true ->
  Load weights model_type weight_type wrapping pool tok st = Returns r ->
  config_ (r.1.2) = (LoadConfig (ReadFromBlobStore_open weights) (config_ st)).2.
Proof.
  intros Htoc. unfold Load. destruct (negb (Exists weights)); [discriminate |].
  rewrite Htoc.
  destruct (LoadConfig _ (config_ st)) as [err cfg]. cbn [snd].
  destruct (negb (err =? 0)%Z || _).
  { intros H. inversion H; subst. reflexivity. }
  destruct tok as [s |].
  - destruct (LoadTokenizer _) as [err' tok'].
    destruct (negb (err' =? 0)%Z).
    { intros H. inversion H; subst. reflexivity. }
    intros H. apply Load_tensors_config in H. destruct H as [H _]. exact H.
  - intros H. apply Load_tensors_config in H. destruct H as [H _]. exact H.
Qed.

End MoreRandInitProperties.

Lemma RandInit_forgets_contents_witness :
  exists w' gen',
    RandInit (ext := example_externals) (5 : @mt19937 example_externals)
      (mkModelWeightsStorage example_config
         (Some (mkModelWeightsPtrs example_config
                  [mkMatPtr "a" 2 (Some [1; 2]%Z) 9%Z])) None None None [])
    = Returns
        (set_float_weights
           (mkModelWeightsStorage example_config
              (Some (mkModelWeightsPtrs example_config
                       [mkMatPtr "a" 2 (Some [1; 2]%Z) 9%Z])) None None None [])
           (Some w'), gen') /\
    RandInit (ext := example_externals) (5 : @mt19937 example_externals)
      (mkModelWeightsStorage example_config
         (Some (mkModelWeightsPtrs example_config
                  [mkMatPtr "a" 2 (Some [7; 8]%Z) float_1])) None None None [])
    = Returns
        (set_float_weights
           (mkModelWeightsStorage example_config
              (Some (mkModelWeightsPtrs example_config
                       [mkMatPtr "a" 2 (Some [7; 8]%Z) float_1])) None None None [])
           (Some w'), gen').
Proof.
  apply (RandInit_forgets_contents (ext := example_externals) 5 _ _
           (mkModelWeightsPtrs example_config [mkMatPtr "a" 2 (Some [1; 2]%Z) 9%Z])
           (mkModelWeightsPtrs example_config [mkMatPtr "a" 2 (Some [7; 8]%Z) float_1])).
  - reflexivity.
  - reflexivity.
  - reflexivity.
  - repeat constructor.
Defined.

Lemma Load_toc_config_witness :
  exists r,
    Load (ext := example_externals) (mkPath "toc.sbs") UNKNOWN kUnknown 0%Z 0 None
         (ModelWeightsStorage_new (mkModelConfig UNKNOWN 0%Z kUnknown 0%Z 0 0))
    = Returns r /\
    config_ (r.1.2) = example_config.
Proof.
  eexists. split; [vm_compute; reflexivity |].
  apply (Load_toc_config (ext := example_externals) (mkPath "toc.sbs") UNKNOWN
           kUnknown 0%Z 0 None
           (ModelWeightsStorage_new (mkModelConfig UNKNOWN 0%Z kUnknown 0%Z 0 0))).
  - reflexivity.
  - vm_compute. reflexivity.
Defined.
